(** * NPM dataplane cache: IP-set manager, policy manager, DataPlane orchestrator

    A shallow embedding of the Go packages [ipsets], [policies] and
    [dataplane] of azure-container-networking (npm/pkg/dataplane), with the
    properties of their in-memory caches.

    Go pointers to IP sets are addresses into an explicit heap, so that the
    in-place updates of [set.IpPodKey] and [list.IPSet] and the pointer
    comparison of [AddToList] read as in the source.  The [sync.Mutex]
    embedded in every [IPSetMap] is a boolean: [Lock] on a held mutex never
    returns (Go mutexes are not re-entrant), which is the outcome [Blocked].
    Logging ([log.Logf], [klog.Infof]) has no effect on the caches and is
    left out. *)

From Stdlib Require Import Ascii String.
From stdpp Require Import base option gmap strings list sorting.

Open Scope string_scope.

(** ** Errors *)

Module errors.

(** The operation codes of npm/util/errors that the managers use. *)
Inductive Operation := CreateIPSet | AppendIPSet | DeleteIPSet.

(** A Go [error] value: one built by [errors.Errorf(op, retriable, msg)],
    one wrapped by [fmt.Errorf("<context>: %w", err)], or one handed back by
    an external collaborator (the programming backend). *)
Inductive error :=
| Errorf (op : Operation) (retriable : bool) (msg : string)
| Wrap (context : string) (inner : error)
| External (msg : string).

End errors.

Export errors.

(** ** Package ipsets *)

Module ipsets.

Inductive SetKind := ListSet | HashSet | UnknownKind.

#[export] Instance SetKind_eq_dec : EqDecision SetKind.
Proof. solve_decision. Defined.

(** What the manager takes from outside this file of the repository: the
    value [SetType_Unknown] of the protobuf enumeration [api.SetType], the
    table behind [getSetKind] (the kind implied by a set's type), and the
    test [net.ParseIP(ip).To4() != nil] of Go's standard library. *)
Class Env (SetType : Type) := {
  SetType_Unknown : SetType;
  kindOfType : SetType -> SetKind;
  isIPv4 : string -> bool
}.

(** A [*api.IPSet]. *)
Definition ptr := positive.

Section model.
(** [api.SetType] *)
Context {SetType : Type} `{Env SetType}.

(** [api.IPSet]: the fields the manager reads and writes.  The two maps are
    allocated maps, as [NewIPSet] leaves them. *)
Record IPSet := mkIPSet {
  Name : string;
  Type_ : SetType;
  IpPodKey : gmap string string;
  IPSet_ : gmap string ptr
}.

(** [IPSetMap]: the cache and the embedded [sync.Mutex] ([true]: held). *)
Record IPSetMap := mkIPSetMap {
  cache : gmap string ptr;
  mu : bool
}.

Record IPSetManager := mkIPSetManager {
  listMap : IPSetMap;
  setMap : IPSetMap;
  os : string
}.

(** Modelled from the spec: the metrics sink (package metrics is not among
    the sources): a counter of set entries and a per-set inventory size,
    incremented and decremented on membership change. *)
Record Metrics := mkMetrics {
  NumIPSetEntries : Z;
  IPSetInventory : gmap string Z
}.

(** Everything an operation of the manager can reach. *)
Record State := mkState {
  heap : gmap ptr IPSet;
  mgr : IPSetManager;
  metrics : Metrics
}.

(** How a call ends: it returns a value and leaves a state, it waits for
    ever on a mutex that is held, or it panics on a nil pointer. *)
Inductive outcome (A : Type) :=
| Returned (a : A) (st : State)
| Blocked
| Panicked.
Arguments Returned {A} a st.
Arguments Blocked {A}.
Arguments Panicked {A}.

Definition newIPSetMap : IPSetMap := {| cache := ∅; mu := false |}.

Definition exists_ (m : IPSetMap) (name : string) : bool :=
  bool_decide (is_Some (cache m !! name)).

Definition NewIPSetManager : IPSetManager :=
  {| listMap := newIPSetMap; setMap := newIPSetMap; os := "linux" |}.

Definition InitializeAll : Metrics :=
  {| NumIPSetEntries := 0; IPSetInventory := ∅ |}.

Definition initial : State :=
  {| heap := ∅; mgr := NewIPSetManager; metrics := InitializeAll |}.

(** The two caches of the manager, as [getSetCache] selects them. *)
Inductive which := TheListMap | TheSetMap.

Definition getMap (w : which) (st : State) : IPSetMap :=
  match w with
  | TheListMap => listMap (mgr st)
  | TheSetMap => setMap (mgr st)
  end.

Definition setMap_ (w : which) (m : IPSetMap) (st : State) : State :=
  {| heap := heap st;
     mgr := match w with
            | TheListMap => {| listMap := m; setMap := setMap (mgr st); os := os (mgr st) |}
            | TheSetMap => {| listMap := listMap (mgr st); setMap := m; os := os (mgr st) |}
            end;
     metrics := metrics st |}.

Definition setMu (w : which) (b : bool) (st : State) : State :=
  setMap_ w {| cache := cache (getMap w st); mu := b |} st.

Definition setCache (w : which) (c : gmap string ptr) (st : State) : State :=
  setMap_ w {| cache := c; mu := mu (getMap w st) |} st.

Definition store (p : ptr) (obj : IPSet) (st : State) : State :=
  {| heap := <[p := obj]> (heap st); mgr := mgr st; metrics := metrics st |}.

(** [m.Lock(); defer m.Unlock()] around the rest of a function body. *)
Definition with_lock {A} (w : which) (body : State -> outcome A) (st : State) : outcome A :=
  if mu (getMap w st) then Blocked
  else match body (setMu w true st) with
       | Returned a st' => Returned a (setMu w false st')
       | Blocked => Blocked
       | Panicked => Panicked
       end.

(** [metrics.NumIPSetEntries.Inc(); metrics.IncIPSetInventory(setName)] *)
Definition IncEntries (setName : string) (st : State) : State :=
  {| heap := heap st; mgr := mgr st;
     metrics := {| NumIPSetEntries := NumIPSetEntries (metrics st) + 1;
                   IPSetInventory :=
                     <[setName := (default 0 (IPSetInventory (metrics st) !! setName) + 1)%Z]>
                       (IPSetInventory (metrics st)) |} |}.

(** [metrics.NumIPSetEntries.Dec(); metrics.DecIPSetInventory(setName)] *)
Definition DecEntries (setName : string) (st : State) : State :=
  {| heap := heap st; mgr := mgr st;
     metrics := {| NumIPSetEntries := NumIPSetEntries (metrics st) - 1;
                   IPSetInventory :=
                     <[setName := (default 0 (IPSetInventory (metrics st) !! setName) - 1)%Z]>
                       (IPSetInventory (metrics st)) |} |}.

(** Modelled from the spec: [NewIPSet] (its file is not among the sources)
    allocates a new IPSet with the given name and type and no members. *)
Definition NewIPSet (name : string) (ty : SetType) (st : State) : ptr * State :=
  let p := fresh (dom (heap st)) in
  (p, store p {| Name := name; Type_ := ty; IpPodKey := ∅; IPSet_ := ∅ |} st).

(** [getSetKind(set)]: the kind implied by the type of the set [set] points
    to; [None] when [set] points to nothing (a nil dereference). *)
Definition getSetKind (st : State) (set : ptr) : option SetKind :=
  obj ← heap st !! set; Some (kindOfType (Type_ obj)).

Definition getSetCache (st : State) (set : ptr) : option (which + error) :=
  kind ← getSetKind st set;
  Some match kind with
       | ListSet => inl TheListMap
       | HashSet => inl TheSetMap
       | UnknownKind => inr (Errorf CreateIPSet false "unknown Set kind")
       end.

Definition CreateIPSet (set : ptr) (st : State) : outcome (option error) :=
  match getSetCache st set with
  | None => Panicked
  | Some (inr err) => Returned (Some err) st
  | Some (inl m) =>
      with_lock m (fun st =>
        match heap st !! set with
        | None => Panicked
        | Some obj =>
            if exists_ (getMap m st) (Name obj) then Returned None st
            else Returned None (setCache m (<[Name obj := set]> (cache (getMap m st))) st)
        end) st
  end.

(** [AddToSet] from the kind check on, once [set] is known. *)
Definition addToSet_found (setName ip podKey : string) (set : ptr) (st : State)
  : outcome (option error) :=
  match heap st !! set with
  | None => Panicked
  | Some obj =>
      if bool_decide (kindOfType (Type_ obj) ≠ HashSet) then
        Returned (Some (Errorf AppendIPSet false ("ipset " +:+ setName +:+ " is not a hash set"))) st
      else
        let obj' := {| Name := Name obj; Type_ := Type_ obj;
                       IpPodKey := <[ip := podKey]> (IpPodKey obj);
                       IPSet_ := IPSet_ obj |} in
        match IpPodKey obj !! ip with
        | Some cachedPodKey =>
            if bool_decide (cachedPodKey ≠ podKey)
            then Returned None (store set obj' st)
            else Returned None st
        | None => Returned None (IncEntries setName (store set obj' st))
        end
  end.

Definition AddToSet (setName ip podKey : string) (st : State) : outcome (option error) :=
  if negb (isIPv4 ip) then
    Returned (Some (Errorf AppendIPSet false "IPV6 not supported")) st
  else
    with_lock TheSetMap (fun st =>
      match cache (setMap (mgr st)) !! setName with
      | Some set => addToSet_found setName ip podKey set st
      | None =>
          let '(set, st) := NewIPSet setName SetType_Unknown st in
          match CreateIPSet set st with
          | Returned (Some err) st => Returned (Some err) st
          | Returned None st => addToSet_found setName ip podKey set st
          | Blocked => Blocked
          | Panicked => Panicked
          end
      end) st.

Definition DeleteFromSet (setName ip podKey : string) (st : State) : outcome (option error) :=
  with_lock TheSetMap (fun st =>
    match cache (setMap (mgr st)) !! setName with
    | None =>
        Returned (Some (Errorf DeleteIPSet false ("ipset " +:+ setName +:+ " does not exist"))) st
    | Some set =>
        match heap st !! set with
        | None => Panicked
        | Some obj =>
            if bool_decide (kindOfType (Type_ obj) ≠ HashSet) then
              Returned (Some (Errorf DeleteIPSet false
                                ("ipset " +:+ setName +:+ " is not a hash set"))) st
            else
              let cachedPodKey := default "" (IpPodKey obj !! ip) in
              if bool_decide (cachedPodKey ≠ podKey) then Returned None st
              else
                Returned None
                  (DecEntries setName
                     (store set {| Name := Name obj; Type_ := Type_ obj;
                                   IpPodKey := delete ip (IpPodKey obj);
                                   IPSet_ := IPSet_ obj |} st))
        end
    end) st.

Definition AddToList (listName setName : string) (st : State) : outcome (option error) :=
  if bool_decide (listName = setName) then
    Returned (Some (Errorf AppendIPSet false
                      ("list " +:+ listName +:+ " cannot be added to itself"))) st
  else
    with_lock TheListMap (fun st =>
      match cache (setMap (mgr st)) !! setName with
      | None =>
          Returned (Some (Errorf AppendIPSet false
                            ("member ipset " +:+ setName +:+ " does not exist"))) st
      | Some set =>
          match getSetKind st set with
          | None => Panicked
          | Some kind =>
              if bool_decide (kind ≠ HashSet) && bool_decide (os (mgr st) ≠ "windows") then
                Returned (Some (Errorf DeleteIPSet false
                  ("member ipset " +:+ setName +:+
                   " is not a Set type and nestetd ipsets are not supported"))) st
              else
                match cache (listMap (mgr st)) !! listName with
                | None =>
                    Returned (Some (Errorf AppendIPSet false
                                      ("ipset " +:+ listName +:+ " does not exist"))) st
                | Some list =>
                    match heap st !! list with
                    | None => Panicked
                    | Some lobj =>
                        if bool_decide (kindOfType (Type_ lobj) ≠ ListSet) then
                          Returned (Some (Errorf AppendIPSet false
                                            ("ipset " +:+ listName +:+ " is not a list set"))) st
                        else
                          let lobj' := {| Name := Name lobj; Type_ := Type_ lobj;
                                          IpPodKey := IpPodKey lobj;
                                          IPSet_ := <[setName := set]> (IPSet_ lobj) |} in
                          match IPSet_ lobj !! setName with
                          | Some listSet =>
                              if bool_decide (listSet = set) then Returned None st
                              else Returned None (store list lobj' st)
                          | None => Returned None (IncEntries setName (store list lobj' st))
                          end
                    end
                end
          end
      end) st.

Definition DeleteFromList (listName setName : string) (st : State) : outcome (option error) :=
  with_lock TheListMap (fun st =>
    match cache (setMap (mgr st)) !! setName with
    | None =>
        Returned (Some (Errorf DeleteIPSet false ("ipset " +:+ setName +:+ " does not exist"))) st
    | Some set =>
        match getSetKind st set with
        | None => Panicked
        | Some kind =>
            if bool_decide (kind ≠ HashSet) then
              Returned (Some (Errorf DeleteIPSet false
                                ("ipset " +:+ setName +:+ " is not a hash set"))) st
            else if bool_decide (kind ≠ HashSet) && bool_decide (os (mgr st) ≠ "windows") then
              Returned (Some (Errorf DeleteIPSet false
                ("member ipset " +:+ setName +:+
                 " is not a Set type and nestetd ipsets are not supported"))) st
            else
              match cache (listMap (mgr st)) !! listName with
              | None =>
                  Returned (Some (Errorf DeleteIPSet false
                                    ("ipset " +:+ listName +:+ " does not exist"))) st
              | Some list =>
                  match heap st !! list with
                  | None => Panicked
                  | Some lobj =>
                      if bool_decide (kindOfType (Type_ lobj) ≠ ListSet) then
                        Returned (Some (Errorf DeleteIPSet false
                                          ("ipset " +:+ listName +:+ " is not a list set"))) st
                      else
                        match IPSet_ lobj !! setName with
                        | None => Returned None st
                        | Some _ => Returned None st
                        end
                  end
              end
        end
    end) st.

Definition DeleteList (name : string) (st : State) : outcome unit :=
  with_lock TheListMap (fun st =>
    Returned tt (setCache TheListMap (delete name (cache (listMap (mgr st)))) st)) st.

Definition DeleteSet (name : string) (st : State) : outcome unit :=
  with_lock TheSetMap (fun st =>
    Returned tt (setCache TheSetMap (delete name (cache (setMap (mgr st)))) st)) st.

Definition Clear (st : State) : outcome unit :=
  with_lock TheListMap (fun st =>
    let st := setCache TheListMap ∅ st in
    with_lock TheSetMap (fun st => Returned tt (setCache TheSetMap ∅ st)) st) st.

(** The owner the hash-set cache records for [ip] in the set [setName]. *)
Definition owner (st : State) (setName ip : string) : option string :=
  set ← cache (setMap (mgr st)) !! setName;
  obj ← heap st !! set;
  IpPodKey obj !! ip.

(** [setName] is cached in [w] as a set of kind [k]. *)
Definition cached (w : which) (k : SetKind) (st : State) (setName : string) : Prop :=
  ∃ set obj, cache (getMap w st) !! setName = Some set ∧
             heap st !! set = Some obj ∧ kindOfType (Type_ obj) = k.

(** *** GetIPsFromSelectorIPSets *)

Inductive SelectorError := SetNotFound (name : string) | WrongKind (name : string).

(** The IP membership of the hash set cached under [name]. *)
Definition selectorIPs (st : State) (name : string) : SelectorError + gset string :=
  match cache (setMap (mgr st)) !! name with
  | None => inl (SetNotFound name)
  | Some set =>
      match heap st !! set with
      | None => inl (SetNotFound name)
      | Some obj =>
          if bool_decide (kindOfType (Type_ obj) = HashSet)
          then inr (dom (IpPodKey obj))
          else inl (WrongKind name)
      end
  end.

Fixpoint intersectSelectorIPs (st : State) (setNames : list string) (ips : gset string)
  : SelectorError + gset string :=
  match setNames with
  | [] => inr ips
  | name :: rest =>
      match selectorIPs st name with
      | inl err => inl err
      | inr members => intersectSelectorIPs st rest (ips ∩ members)
      end
  end.

(** Modelled from the spec: [GetIPsFromSelectorIPSets] (only its test is
    among the sources) computes the intersection of the IP membership across
    the named hash sets, and fails with SetNotFound or WrongKind on a name
    that is absent or not a hash set; no name gives the empty set. *)
Definition GetIPsFromSelectorIPSets (st : State) (setNames : list string)
  : SelectorError + gset string :=
  match setNames with
  | [] => inr ∅
  | name :: rest =>
      match selectorIPs st name with
      | inl err => inl err
      | inr members => intersectSelectorIPs st rest members
      end
  end.

(** [mgr.CreateIPSet(NewIPSet(name, ty))] *)
Definition CreateNewIPSet (name : string) (ty : SetType) (st : State) : outcome (option error) :=
  let '(set, st) := NewIPSet name ty st in CreateIPSet set st.

(** Calls in sequence: the next one runs when the previous returned no error. *)
Fixpoint run (calls : list (State -> outcome (option error))) (st : State)
  : outcome (option error) :=
  match calls with
  | [] => Returned None st
  | call :: rest =>
      match call st with
      | Returned None st' => run rest st'
      | o => o
      end
  end.

(** *** The calls of the manager and the invariant of its caches *)

(** A call of the manager; a set is created as
    [mgr.CreateIPSet(NewIPSet(name, ty))]. *)
Inductive call :=
| CallCreateIPSet (name : string) (ty : SetType)
| CallAddToSet (setName ip podKey : string)
| CallDeleteFromSet (setName ip podKey : string)
| CallAddToList (listName setName : string)
| CallDeleteFromList (listName setName : string)
| CallDeleteList (name : string)
| CallDeleteSet (name : string)
| CallClear.

(** A function without a result returns no error. *)
Definition discard (o : outcome unit) : outcome (option error) :=
  match o with
  | Returned _ st => Returned None st
  | Blocked => Blocked
  | Panicked => Panicked
  end.

Definition perform (c : call) (st : State) : outcome (option error) :=
  match c with
  | CallCreateIPSet name ty => CreateNewIPSet name ty st
  | CallAddToSet setName ip podKey => AddToSet setName ip podKey st
  | CallDeleteFromSet setName ip podKey => DeleteFromSet setName ip podKey st
  | CallAddToList listName setName => AddToList listName setName st
  | CallDeleteFromList listName setName => DeleteFromList listName setName st
  | CallDeleteList name => discard (DeleteList name st)
  | CallDeleteSet name => discard (DeleteSet name st)
  | CallClear => discard (Clear st)
  end.

(** The kind of the sets a cache is for. *)
Definition kindOf (w : which) : SetKind :=
  match w with
  | TheListMap => ListSet
  | TheSetMap => HashSet
  end.

(** Every entry of the cache [w] points to an allocated set of the cache's
    kind that carries the name it is cached under. *)
Definition cacheOk (w : which) (st : State) : Prop :=
  ∀ name p, cache (getMap w st) !! name = Some p ->
    ∃ obj, heap st !! p = Some obj ∧ Name obj = name ∧ kindOfType (Type_ obj) = kindOf w.

(** Every member of every allocated set points to an allocated set. *)
Definition membersOk (st : State) : Prop :=
  ∀ p obj name q, heap st !! p = Some obj -> IPSet_ obj !! name = Some q ->
    is_Some (heap st !! q).

Definition consistent (st : State) : Prop :=
  cacheOk TheListMap st ∧ cacheOk TheSetMap st ∧ membersOk st.

(** Both mutexes of the manager are free. *)
Definition unlocked (st : State) : Prop :=
  mu (listMap (mgr st)) = false ∧ mu (setMap (mgr st)) = false.

(** The mutexes are in [st'] as they are in [st]. *)
Definition sameLocks (st st' : State) : Prop :=
  mu (listMap (mgr st')) = mu (listMap (mgr st)) ∧
  mu (setMap (mgr st')) = mu (setMap (mgr st)).

(** What every step of an operation keeps: the invariant, and the state of
    the mutexes. *)
Definition keeps (st st' : State) : Prop :=
  (consistent st -> consistent st') ∧ sameLocks st st'.

(** The states a new manager reaches by calls that return. *)
Inductive reachable : State -> Prop :=
| reachable_initial : reachable initial
| reachable_call st c r st' :
    reachable st -> perform c st = Returned r st' -> reachable st'.

(** The calls returned no error, and left a state of which [P] holds. *)
Definition returned_ok (o : outcome (option error)) (P : State -> Prop) : Prop :=
  match o with
  | Returned None st => P st
  | _ => False
  end.

(** The calls stopped at one that returned an error. *)
Definition returned_error (o : outcome (option error)) : Prop :=
  match o with
  | Returned (Some _) _ => True
  | _ => False
  end.

End model.

Arguments IPSet SetType : clear implicits.
Arguments State SetType : clear implicits.
Arguments outcome SetType A : clear implicits.
Arguments call SetType : clear implicits.
Arguments Returned {_ _} a st.
Arguments Blocked {_ _}.
Arguments Panicked {_ _}.

(** *** The environment of the package's tests *)

(** The set types the tests create sets with, and [SetType_Unknown]. *)
Inductive TestSetType :=
| Unknown | NameSpace | KeyLabelOfNameSpace | KeyLabelOfPod | KeyValueLabelOfPod.

(** The kinds the tests rely on: AddToSet succeeds on sets of type NameSpace,
    KeyLabelOfPod and KeyValueLabelOfPod, AddToList on a list of type
    KeyLabelOfNameSpace. *)
Definition testKind (ty : TestSetType) : SetKind :=
  match ty with
  | Unknown => UnknownKind
  | KeyLabelOfNameSpace => ListSet
  | NameSpace | KeyLabelOfPod | KeyValueLabelOfPod => HashSet
  end.

Definition isDigit (c : ascii) : bool :=
  (48 <=? nat_of_ascii c)%nat && (nat_of_ascii c <=? 57)%nat.

Fixpoint fields (s : string) (field : list ascii) : list (list ascii) :=
  match s with
  | EmptyString => [rev field]
  | String c s' =>
      if Ascii.eqb c "."%char then rev field :: fields s' [] else fields s' (c :: field)
  end.

Definition decimal (field : list ascii) : nat :=
  foldl (fun n c => 10 * n + (nat_of_ascii c - 48))%nat 0%nat field.

Definition isOctet (field : list ascii) : bool :=
  (1 <=? length field)%nat && (length field <=? 3)%nat &&
  forallb isDigit field && (decimal field <=? 255)%nat.

(** Dotted-decimal IPv4 text: four decimal fields of at most 255. *)
Definition dottedQuad (s : string) : bool :=
  match fields s [] with
  | [a; b; c; d] => isOctet a && isOctet b && isOctet c && isOctet d
  | _ => false
  end.

Definition testEnv : Env TestSetType :=
  {| SetType_Unknown := Unknown; kindOfType := testKind; isIPv4 := dottedQuad |}.

Section tests.
#[local] Existing Instance testEnv.

(** The calls of TestGetIPsFromSelectorIPSets before the query, a set name
    at a time. *)
Definition selectorScenario : outcome TestSetType (option error) :=
  run
    ([CreateNewIPSet "setNs1" NameSpace; CreateNewIPSet "setpod1" KeyLabelOfPod;
      CreateNewIPSet "setpod2" KeyLabelOfPod; CreateNewIPSet "setpod3" KeyValueLabelOfPod]
     ++ map (fun name => AddToSet name "10.0.0.1" "test")
          ["setNs1"; "setpod1"; "setpod2"; "setpod3"]
     ++ map (fun name => AddToSet name "10.0.0.2" "test1")
          ["setNs1"; "setpod1"; "setpod2"; "setpod3"]
     ++ map (fun name => AddToSet name "10.0.0.3" "test3")
          ["setNs1"; "setpod2"; "setpod3"])
    initial.

(** The state those calls leave. *)
Definition selectorState : State TestSetType :=
  match selectorScenario with
  | Returned _ st => st
  | _ => initial
  end.

(** A manager with a hash set [test-set] that holds 10.0.0.0 for
    [test-pod-key], and a list [test-list] with [test-set] as its member. *)
Definition testSet : IPSet TestSetType :=
  {| Name := "test-set"; Type_ := NameSpace;
     IpPodKey := {[ "10.0.0.0" := "test-pod-key" ]}; IPSet_ := ∅ |}.

Definition testList : IPSet TestSetType :=
  {| Name := "test-list"; Type_ := KeyLabelOfNameSpace;
     IpPodKey := ∅; IPSet_ := {[ "test-set" := 1%positive ]} |}.

Definition testState : State TestSetType :=
  {| heap := {[ 1%positive := testSet; 2%positive := testList ]};
     mgr := {| listMap := {| cache := {[ "test-list" := 2%positive ]}; mu := false |};
               setMap := {| cache := {[ "test-set" := 1%positive ]}; mu := false |};
               os := "linux" |};
     metrics := {| NumIPSetEntries := 2; IPSetInventory := {[ "test-set" := 2%Z ]} |} |}.

(** A new manager after [NewIPSet("test-set", NameSpace)]: the set is
    allocated, at address 1, and not cached yet. *)
Definition allocatedState : State TestSetType := (NewIPSet "test-set" NameSpace initial).2.

Definition allocatedSet : IPSet TestSetType :=
  {| Name := "test-set"; Type_ := NameSpace; IpPodKey := ∅; IPSet_ := ∅ |}.

End tests.

End ipsets.

(** ** Package policies *)

Module policies.

Section model.
(** [ipsets.IPSet] as a translated policy carries it. *)
Variable IPSet : Type.

(** [NPMNetworkPolicy]: the fields the managers use.  [PodEndpoints] is a Go
    map that may be nil ([None]).  The policy cache holds policies by
    value: no operation below reads a policy through a second pointer. *)
Record NPMNetworkPolicy := mkNPMNetworkPolicy {
  Name : string;
  PodSelectorIPSets : list IPSet;
  RuleIPSets : list IPSet;
  PodEndpoints : option (gmap string string)
}.

(** The external programming backend: the platform's [addPolicy],
    [removePolicy] and [updatePolicy] (not among the sources) program the
    real network stack, whose state is [Programmed], and report an error or
    none. *)
Variable Programmed : Type.
Class Backend (Programmed : Type) := {
  addPolicy : NPMNetworkPolicy -> Programmed -> option error * Programmed;
  removePolicy : string -> Programmed -> option error * Programmed;
  updatePolicy : NPMNetworkPolicy -> Programmed -> option error * Programmed
}.
Context `{Backend Programmed}.

Record PolicyMap := mkPolicyMap {
  cache : gmap string NPMNetworkPolicy
}.

(** [PolicyManager], together with the network stack its backend programs. *)
Record PolicyManager := mkPolicyManager {
  policyMap : PolicyMap;
  programmed : Programmed
}.

Definition NewPolicyManager (w : Programmed) : PolicyManager :=
  {| policyMap := {| cache := ∅ |}; programmed := w |}.

Definition PolicyExists (pMgr : PolicyManager) (name : string) : bool :=
  bool_decide (is_Some (cache (policyMap pMgr) !! name)).

(** [(policy, ok)]: [None] stands for [ok = false]. *)
Definition GetPolicy (pMgr : PolicyManager) (name : string) : option NPMNetworkPolicy :=
  cache (policyMap pMgr) !! name.

Definition AddPolicy (policy : NPMNetworkPolicy) (pMgr : PolicyManager)
  : option error * PolicyManager :=
  match addPolicy policy (programmed pMgr) with
  | (Some err, w) => (Some err, {| policyMap := policyMap pMgr; programmed := w |})
  | (None, w) =>
      (None, {| policyMap := {| cache := <[Name policy := policy]> (cache (policyMap pMgr)) |};
                programmed := w |})
  end.

Definition RemovePolicy (name : string) (pMgr : PolicyManager)
  : option error * PolicyManager :=
  match removePolicy name (programmed pMgr) with
  | (Some err, w) => (Some err, {| policyMap := policyMap pMgr; programmed := w |})
  | (None, w) =>
      (None, {| policyMap := {| cache := delete name (cache (policyMap pMgr)) |};
                programmed := w |})
  end.

Definition UpdatePolicy (policy : NPMNetworkPolicy) (pMgr : PolicyManager)
  : option error * PolicyManager :=
  match updatePolicy policy (programmed pMgr) with
  | (Some err, w) => (Some err, {| policyMap := policyMap pMgr; programmed := w |})
  | (None, w) => (None, {| policyMap := policyMap pMgr; programmed := w |})
  end.

End model.

Arguments Name {_} _.
Arguments PodSelectorIPSets {_} _.
Arguments RuleIPSets {_} _.
Arguments PodEndpoints {_} _.
Arguments addPolicy {_ _ _} _ _.
Arguments removePolicy {_ _ _} _ _.
Arguments updatePolicy {_ _ _} _ _.
Arguments cache {_} _.
Arguments policyMap {_ _} _.
Arguments programmed {_ _} _.
Arguments NewPolicyManager {_ _} w.
Arguments PolicyExists {_ _} pMgr name.
Arguments GetPolicy {_ _} pMgr name.
Arguments AddPolicy {_ _ _} policy pMgr.
Arguments RemovePolicy {_ _ _} name pMgr.
Arguments UpdatePolicy {_ _ _} policy pMgr.

End policies.

(** ** Package dataplane *)

Module dataplane.

Import ipsets(SetKind, ListSet, HashSet, UnknownKind).

Inductive ReferenceType := SelectorType | NetPolType.

Section model.
(** [ipsets.SetType] *)
Variable SetType : Type.

(** [ipsets.IPSet] as DataPlane reads it from a translated policy. *)
#[warnings="-register-all"] Inductive IPSet := mkIPSet {
  Name : string;
  Type_ : SetType;
  Kind : SetKind;
  MemberIPSets : list IPSet
}.

(** The IPSet manager DataPlane calls, taken by its interface (this revision
    of the manager is not among the sources): [IPSetManager] is all the
    state its operations reach, with the reference state of every set. *)
Variable IPSetManager : Type.
Class IPSetManagerAPI (IPSetManager : Type) := {
  CreateIPSet : string -> SetType -> IPSetManager -> IPSetManager;
  DeleteIPSet : string -> IPSetManager -> IPSetManager;
  AddReference : string -> string -> ReferenceType -> IPSetManager -> option error * IPSetManager;
  DeleteReference : string -> string -> ReferenceType -> IPSetManager -> option error * IPSetManager;
  AddToList : string -> list string -> IPSetManager -> option error * IPSetManager;
  RemoveFromList : string -> list string -> IPSetManager -> option error * IPSetManager
}.
(** The network stack the policy backend programs. *)
Variable Programmed : Type.
Context `{IPSetManagerAPI IPSetManager} `{policies.Backend IPSet Programmed}.

Record NPMEndpoint := mkNPMEndpoint {
  EndpointName : string;
  ID : string;
  NetPolReference : gset string
}.

Record DataPlane := mkDataPlane {
  policyMgr : policies.PolicyManager IPSet Programmed;
  ipsetMgr : IPSetManager;
  networkID : string;
  nodeName : string;
  endpointCache : gmap string NPMEndpoint
}.

Definition setPolicyMgr (pm : policies.PolicyManager IPSet Programmed) (dp : DataPlane) : DataPlane :=
  {| policyMgr := pm; ipsetMgr := ipsetMgr dp; networkID := networkID dp;
     nodeName := nodeName dp; endpointCache := endpointCache dp |}.

Definition setIpsetMgr (im : IPSetManager) (dp : DataPlane) : DataPlane :=
  {| policyMgr := policyMgr dp; ipsetMgr := im; networkID := networkID dp;
     nodeName := nodeName dp; endpointCache := endpointCache dp |}.

(** Both platforms: [return nil, nil]. *)
Definition getEndpointsToApplyPolicy (policy : policies.NPMNetworkPolicy IPSet) (dp : DataPlane)
  : option (gmap string string) * option error :=
  (None, None).

(** First loop of [addIPSetReferences]. *)
Fixpoint createAndReference (sets : list IPSet) (netpolName : string)
    (referenceType : ReferenceType) (im : IPSetManager) : option error * IPSetManager :=
  match sets with
  | [] => (None, im)
  | set :: rest =>
      let im := CreateIPSet (Name set) (Type_ set) im in
      match AddReference (Name set) netpolName referenceType im with
      | (Some err, im) => (Some err, im)
      | (None, im) => createAndReference rest netpolName referenceType im
      end
  end.

(** Second loop of [addIPSetReferences]. *)
Fixpoint addMembers (sets : list IPSet) (im : IPSetManager) : option error * IPSetManager :=
  match sets with
  | [] => (None, im)
  | set :: rest =>
      match Kind set, MemberIPSets set with
      | ListSet, _ :: _ =>
          match AddToList (Name set) (map Name (MemberIPSets set)) im with
          | (Some err, im) => (Some err, im)
          | (None, im) => addMembers rest im
          end
      | _, _ => addMembers rest im
      end
  end.

Definition addIPSetReferences (sets : list IPSet) (netpolName : string)
    (referenceType : ReferenceType) (dp : DataPlane) : option error * DataPlane :=
  match createAndReference sets netpolName referenceType (ipsetMgr dp) with
  | (Some err, im) => (Some err, setIpsetMgr im dp)
  | (None, im) =>
      let '(err, im) := addMembers sets im in (err, setIpsetMgr im dp)
  end.

(** First loop of [deleteIPSetReferences]. *)
Fixpoint dereference (sets : list IPSet) (netpolName : string)
    (referenceType : ReferenceType) (im : IPSetManager) : option error * IPSetManager :=
  match sets with
  | [] => (None, im)
  | set :: rest =>
      match DeleteReference (Name set) netpolName referenceType im with
      | (Some err, im) => (Some err, im)
      | (None, im) => dereference rest netpolName referenceType im
      end
  end.

(** Second loop of [deleteIPSetReferences]. *)
Fixpoint removeMembersAndDelete (sets : list IPSet) (im : IPSetManager)
  : option error * IPSetManager :=
  match sets with
  | [] => (None, im)
  | set :: rest =>
      match Kind set, MemberIPSets set with
      | ListSet, _ :: _ =>
          match RemoveFromList (Name set) (map Name (MemberIPSets set)) im with
          | (Some err, im) => (Some err, im)
          | (None, im) => removeMembersAndDelete rest (DeleteIPSet (Name set) im)
          end
      | _, _ => removeMembersAndDelete rest (DeleteIPSet (Name set) im)
      end
  end.

Definition deleteIPSetReferences (sets : list IPSet) (netpolName : string)
    (referenceType : ReferenceType) (dp : DataPlane) : option error * DataPlane :=
  match dereference sets netpolName referenceType (ipsetMgr dp) with
  | (Some err, im) => (Some err, setIpsetMgr im dp)
  | (None, im) =>
      let '(err, im) := removeMembersAndDelete sets im in (err, setIpsetMgr im dp)
  end.

Definition UpdatePolicy (policy : policies.NPMNetworkPolicy IPSet) (dp : DataPlane)
  : option error * DataPlane :=
  match policies.UpdatePolicy policy (policyMgr dp) with
  | (Some err, pm) =>
      (Some (Wrap "[DataPlane] error while updating policy" err), setPolicyMgr pm dp)
  | (None, pm) => (None, setPolicyMgr pm dp)
  end.

Definition AddPolicy (policy : policies.NPMNetworkPolicy IPSet) (dp : DataPlane)
  : option error * DataPlane :=
  if policies.PolicyExists (policyMgr dp) (policies.Name policy) then UpdatePolicy policy dp
  else
    match addIPSetReferences (policies.PodSelectorIPSets policy) (policies.Name policy)
            SelectorType dp with
    | (Some err, dp) =>
        (Some (Wrap "[DataPlane] error while adding Selector IPSet references" err), dp)
    | (None, dp) =>
        match addIPSetReferences (policies.RuleIPSets policy) (policies.Name policy)
                NetPolType dp with
        | (Some err, dp) =>
            (Some (Wrap "[DataPlane] error while adding Rule IPSet references" err), dp)
        | (None, dp) =>
            match getEndpointsToApplyPolicy policy dp with
            | (_, Some err) => (Some err, dp)
            | (endpointList, None) =>
                let policy :=
                  {| policies.Name := policies.Name policy;
                     policies.PodSelectorIPSets := policies.PodSelectorIPSets policy;
                     policies.RuleIPSets := policies.RuleIPSets policy;
                     policies.PodEndpoints := endpointList |} in
                match policies.AddPolicy policy (policyMgr dp) with
                | (Some err, pm) =>
                    (Some (Wrap "[DataPlane] error while adding policy" err), setPolicyMgr pm dp)
                | (None, pm) => (None, setPolicyMgr pm dp)
                end
            end
        end
    end.

Definition RemovePolicy (policyName : string) (dp : DataPlane) : option error * DataPlane :=
  match policies.GetPolicy (policyMgr dp) policyName with
  | None => (None, dp)
  | Some policy =>
      match policies.RemovePolicy (policies.Name policy) (policyMgr dp) with
      | (Some err, pm) =>
          (Some (Wrap "[DataPlane] error while removing policy" err), setPolicyMgr pm dp)
      | (None, pm) =>
          let dp := setPolicyMgr pm dp in
          match deleteIPSetReferences (policies.RuleIPSets policy) (policies.Name policy)
                  NetPolType dp with
          | (Some err, dp) => (Some err, dp)
          | (None, dp) =>
              match deleteIPSetReferences (policies.PodSelectorIPSets policy)
                      (policies.Name policy) SelectorType dp with
              | (Some err, dp) => (Some err, dp)
              | (None, dp) => (None, dp)
              end
          end
      end
  end.

End model.

Arguments IPSet SetType : clear implicits.
Arguments mkIPSet {_} _ _ _ _.
Arguments Name {_} _.
Arguments Type_ {_} _.
Arguments Kind {_} _.
Arguments MemberIPSets {_} _.
Arguments CreateIPSet {_ _ _} _ _ _.
Arguments DeleteIPSet {_ _ _} _ _.
Arguments AddReference {_ _ _} _ _ _ _.
Arguments DeleteReference {_ _ _} _ _ _ _.
Arguments AddToList {_ _ _} _ _ _.
Arguments RemoveFromList {_ _ _} _ _ _.
Arguments policyMgr {_ _ _} _.
Arguments ipsetMgr {_ _ _} _.
Arguments networkID {_ _ _} _.
Arguments nodeName {_ _ _} _.
Arguments endpointCache {_ _ _} _.
Arguments setPolicyMgr {_ _ _} pm dp.
Arguments setIpsetMgr {_ _ _} im dp.
Arguments getEndpointsToApplyPolicy {_ _ _} policy dp.
Arguments createAndReference {_ _ _} sets netpolName referenceType im.
Arguments addMembers {_ _ _} sets im.
Arguments addIPSetReferences {_ _ _ _} sets netpolName referenceType dp.
Arguments dereference {_ _ _} sets netpolName referenceType im.
Arguments removeMembersAndDelete {_ _ _} sets im.
Arguments deleteIPSetReferences {_ _ _ _} sets netpolName referenceType dp.
Arguments UpdatePolicy {_ _ _ _} policy dp.
Arguments AddPolicy {_ _ _ _ _} policy dp.
Arguments RemovePolicy {_ _ _ _ _} policyName dp.

(** *** A manager and a backend for the examples *)

(** Modelled from the spec: a set of the manager DataPlane calls (that
    revision is not among the sources), with its reference counters (the
    policies that reference it as a selector and in a rule) and its member
    sets. *)
Record TrackedSet := mkTrackedSet {
  trackedType : ipsets.TestSetType;
  selectorReferences : gset string;
  netPolReferences : gset string;
  members : gset string
}.

Definition notCached (name : string) : error :=
  Errorf errors.CreateIPSet false ("ipset " +:+ name +:+ " does not exist").

Definition trackCreate (name : string) (ty : ipsets.TestSetType)
    (im : gmap string TrackedSet) : gmap string TrackedSet :=
  match im !! name with
  | Some _ => im
  | None => <[name := {| trackedType := ty; selectorReferences := ∅;
                         netPolReferences := ∅; members := ∅ |}]> im
  end.

Definition trackDelete (name : string) (im : gmap string TrackedSet) : gmap string TrackedSet :=
  match im !! name with
  | Some set =>
      if bool_decide (selectorReferences set = ∅ ∧ netPolReferences set = ∅)
      then delete name im else im
  | None => im
  end.

Definition trackReference (change : gset string -> gset string) (name : string)
    (referenceType : ReferenceType) (im : gmap string TrackedSet)
  : option error * gmap string TrackedSet :=
  match im !! name with
  | None => (Some (notCached name), im)
  | Some set =>
      (None,
       <[name := match referenceType with
                 | SelectorType =>
                     {| trackedType := trackedType set;
                        selectorReferences := change (selectorReferences set);
                        netPolReferences := netPolReferences set; members := members set |}
                 | NetPolType =>
                     {| trackedType := trackedType set;
                        selectorReferences := selectorReferences set;
                        netPolReferences := change (netPolReferences set);
                        members := members set |}
                 end]> im)
  end.

Definition trackMembers (change : gset string -> gset string) (listName : string)
    (im : gmap string TrackedSet) : option error * gmap string TrackedSet :=
  match im !! listName with
  | None => (Some (notCached listName), im)
  | Some set =>
      (None, <[listName := {| trackedType := trackedType set;
                              selectorReferences := selectorReferences set;
                              netPolReferences := netPolReferences set;
                              members := change (members set) |}]> im)
  end.

Definition trackingManager : IPSetManagerAPI ipsets.TestSetType (gmap string TrackedSet) :=
  {| CreateIPSet := trackCreate;
     DeleteIPSet := trackDelete;
     AddReference name netpolName := trackReference (fun refs => {[netpolName]} ∪ refs) name;
     DeleteReference name netpolName := trackReference (fun refs => refs ∖ {[netpolName]}) name;
     AddToList listName setNames := trackMembers (fun ms => list_to_set setNames ∪ ms) listName;
     RemoveFromList listName setNames := trackMembers (fun ms => ms ∖ list_to_set setNames) listName |}.

(** The same manager, but one that creates no set of a type without a kind
    (CreateIPSet has no error to return): AddReference then fails for it. *)
Definition strictManager : IPSetManagerAPI ipsets.TestSetType (gmap string TrackedSet) :=
  {| CreateIPSet name ty im :=
       match ipsets.testKind ty with
       | UnknownKind => im
       | _ => trackCreate name ty im
       end;
     DeleteIPSet := trackDelete;
     AddReference name netpolName := trackReference (fun refs => {[netpolName]} ∪ refs) name;
     DeleteReference name netpolName := trackReference (fun refs => refs ∖ {[netpolName]}) name;
     AddToList listName setNames := trackMembers (fun ms => list_to_set setNames ∪ ms) listName;
     RemoveFromList listName setNames :=
       trackMembers (fun ms => ms ∖ list_to_set setNames) listName |}.

(** A backend that records the names of the policies it programmed; it
    refuses a policy without a name and the removal or update of a policy it
    never programmed. *)
Definition testBackend : policies.Backend (IPSet ipsets.TestSetType) (list string) :=
  {| policies.addPolicy policy w :=
       if bool_decide (policies.Name policy = "")
       then (Some (External "policy has no name"), w)
       else (None, policies.Name policy :: w);
     policies.removePolicy name w :=
       if bool_decide (name ∈ w)
       then (None, filter (fun n => n ≠ name) w)
       else (Some (External "policy is not programmed"), w);
     policies.updatePolicy policy w :=
       if bool_decide (policies.Name policy ∈ w)
       then (None, w)
       else (Some (External "policy is not programmed"), w) |}.

Section tests.
#[local] Existing Instance trackingManager.
#[local] Existing Instance testBackend.

Definition TestDataPlane : Type :=
  DataPlane ipsets.TestSetType (gmap string TrackedSet) (list string).

(** [NewDataPlane(nodeName)] over the example manager and backend: nothing
    cached, nothing programmed. *)
Definition NewDataPlane (nodeName : string) : TestDataPlane :=
  {| policyMgr := policies.NewPolicyManager [];
     ipsetMgr := ∅;
     networkID := "";
     nodeName := nodeName;
     endpointCache := ∅ |}.

Definition nsDefault : IPSet ipsets.TestSetType :=
  mkIPSet "ns-default" ipsets.NameSpace HashSet [].

Definition nsLabel : IPSet ipsets.TestSetType :=
  mkIPSet "nslabel-env" ipsets.KeyLabelOfNameSpace ListSet [nsDefault].

Definition podApp : IPSet ipsets.TestSetType :=
  mkIPSet "podlabel-app" ipsets.KeyLabelOfPod HashSet [].

Definition unknownSet : IPSet ipsets.TestSetType :=
  mkIPSet "mystery" ipsets.Unknown UnknownKind [].

Definition testPolicy : policies.NPMNetworkPolicy (IPSet ipsets.TestSetType) :=
  {| policies.Name := "default/allow-app";
     policies.PodSelectorIPSets := [nsDefault; podApp];
     policies.RuleIPSets := [nsDefault; nsLabel];
     policies.PodEndpoints := None |}.

Definition unnamedPolicy : policies.NPMNetworkPolicy (IPSet ipsets.TestSetType) :=
  {| policies.Name := "";
     policies.PodSelectorIPSets := [];
     policies.RuleIPSets := [];
     policies.PodEndpoints := None |}.

(** A policy manager whose cache holds [testPolicy] although the backend
    never programmed it. *)
Definition staleManager : policies.PolicyManager (IPSet ipsets.TestSetType) (list string) :=
  {| policies.policyMap := {| policies.cache := {[ "default/allow-app" := testPolicy ]} |};
     policies.programmed := [] |}.

Definition emptyManager : policies.PolicyManager (IPSet ipsets.TestSetType) (list string) :=
  policies.NewPolicyManager [].

(** The DataPlane a first [AddPolicy(testPolicy)] leaves. *)
Definition afterFirstAdd : TestDataPlane :=
  (AddPolicy testPolicy (NewDataPlane "testnode")).2.

End tests.

End dataplane.

(** ** Package dataplane, the Windows platform *)

Module dataplane_windows.

(** [hcn.IpConfig], [hcn.HostComputeEndpoint] and [hcn.HostComputeNetwork] of
    hcsshim: the fields the platform code reads. *)
Record IpConfig := mkIpConfig {
  IpAddress : string
}.

Record HostComputeEndpoint := mkHostComputeEndpoint {
  EndpointName : string;
  EndpointId : string;
  IpConfigurations : list IpConfig
}.

Record HostComputeNetwork := mkHostComputeNetwork {
  NetworkId : string
}.

(** The host compute network service, as the two calls of package hcn the
    platform code makes answer: an error, or the value. *)
Class Hcn := {
  ListEndpointsOfNetwork : string -> error + list HostComputeEndpoint;
  GetNetworkByName : string -> error + HostComputeNetwork
}.

(** [NPMEndpoint] as the Windows code builds it. *)
Record NPMEndpoint := mkNPMEndpoint {
  Name : string;
  ID : string;
  IP : string;
  NetPolReference : gset string
}.

(** [UpdateNPMPod]: the fields [updatePod] reads. *)
Record UpdateNPMPod := mkUpdateNPMPod {
  PodName : string;
  Namespace : string;
  NodeName : string;
  PodIP : string
}.

(** The fields of [DataPlane] the platform code reads and writes.  The
    endpoint cache holds [*NPMEndpoint]: [Some None] is a key that holds the
    nil pointer. *)
Record DataPlane := mkDataPlane {
  networkID : string;
  nodeName : string;
  endpointCache : gmap string (option NPMEndpoint)
}.

(** A call returns, or it panics on a nil pointer. *)
Inductive result (A : Type) :=
| Done (a : A)
| Panic.
Arguments Done {A} a.
Arguments Panic {A}.

Definition AzureNetworkName : string := "azure".

Definition getNPMPodKey (nameSpace name : string) : string :=
  nameSpace +:+ "/" +:+ name.

(** The text holds a slash. *)
Fixpoint hasSlash (s : string) : bool :=
  match s with
  | EmptyString => false
  | String c s' => Ascii.eqb c "/"%char || hasSlash s'
  end.

Section model.
Context `{Hcn}.

Definition shouldUpdatePod (dp : DataPlane) : bool := true.

Definition resetDataPlane (dp : DataPlane) : option error * DataPlane := (None, dp).

Definition getAllPodEndpoints (dp : DataPlane) : error + list HostComputeEndpoint :=
  match ListEndpointsOfNetwork (networkID dp) with
  | inl err => inl err
  | inr endpoints => inr endpoints
  end.

(** One of the IP configurations of the endpoint has the address. *)
Definition hasIP (podIP : string) (endpoint : HostComputeEndpoint) : bool :=
  existsb (fun ipConfig => bool_decide (IpAddress ipConfig = podIP))
    (IpConfigurations endpoint).

(** The loops of [getEndpointByIP]: the first endpoint one of whose IP
    configurations is [podIP], with the address of its first configuration. *)
Fixpoint findEndpointByIP (podIP : string) (endpoints : list HostComputeEndpoint)
  : option NPMEndpoint :=
  match endpoints with
  | [] => None
  | endpoint :: rest =>
      if hasIP podIP endpoint then
        Some {| Name := EndpointName endpoint;
                ID := EndpointId endpoint;
                IP := match IpConfigurations endpoint with
                      | first :: _ => IpAddress first
                      | [] => ""
                      end;
                NetPolReference := ∅ |}
      else findEndpointByIP podIP rest
  end.

Definition getEndpointByIP (podIP : string) (dp : DataPlane) : error + option NPMEndpoint :=
  match getAllPodEndpoints dp with
  | inl err => inl err
  | inr endpoints => inr (findEndpointByIP podIP endpoints)
  end.

Definition setEndpoint (key : string) (endpoint : option NPMEndpoint) (dp : DataPlane)
  : DataPlane :=
  {| networkID := networkID dp; nodeName := nodeName dp;
     endpointCache := <[key := endpoint]> (endpointCache dp) |}.

(** The body of the [if] of [updatePod]: fetch the endpoint and cache it. *)
Definition fetchEndpoint (podKey : string) (pod : UpdateNPMPod) (dp : DataPlane)
  : result (option error * DataPlane) :=
  match getEndpointByIP (PodIP pod) dp with
  | inl err => Done (Some err, dp)
  | inr endpoint => Done (None, setEndpoint podKey endpoint dp)
  end.

Definition updatePod (pod : UpdateNPMPod) (dp : DataPlane)
  : result (option error * DataPlane) :=
  if bool_decide (NodeName pod ≠ nodeName dp) then Done (None, dp)
  else
    let podKey := getNPMPodKey (Namespace pod) (PodName pod) in
    match endpointCache dp !! podKey with
    | None => fetchEndpoint podKey pod dp
    | Some None => Panic
    | Some (Some endpoint) =>
        if bool_decide (IP endpoint ≠ PodIP pod) then fetchEndpoint podKey pod dp
        else Done (None, dp)
    end.

Definition refreshAllPodEndpoints (dp : DataPlane) : option error * DataPlane :=
  match getAllPodEndpoints dp with
  | inl err => (Some err, dp)
  | inr endpoints =>
      (None,
       foldl (fun dp endpoint =>
                setEndpoint (EndpointName endpoint)
                  (Some {| Name := EndpointName endpoint; ID := EndpointId endpoint;
                           IP := ""; NetPolReference := ∅ |}) dp)
         dp endpoints)
  end.

Definition setNetworkIDByName (networkName : string) (dp : DataPlane)
  : option error * DataPlane :=
  match GetNetworkByName networkName with
  | inl err => (Some err, dp)
  | inr network =>
      (None, {| networkID := NetworkId network; nodeName := nodeName dp;
                endpointCache := endpointCache dp |})
  end.

Definition initializeDataPlane (dp : DataPlane) : option error * DataPlane :=
  match setNetworkIDByName AzureNetworkName dp with
  | (Some err, dp) => (Some err, dp)
  | (None, dp) =>
      match refreshAllPodEndpoints dp with
      | (Some err, dp) => (Some err, dp)
      | (None, dp) => (None, dp)
      end
  end.

End model.

(** *** A host for the examples *)

Definition webEndpoint : HostComputeEndpoint :=
  {| EndpointName := "web-eth0"; EndpointId := "ep-1";
     IpConfigurations := [ {| IpAddress := "10.240.0.4" |}; {| IpAddress := "10.240.0.5" |} ] |}.

Definition dbEndpoint : HostComputeEndpoint :=
  {| EndpointName := "db-eth0"; EndpointId := "ep-2";
     IpConfigurations := [ {| IpAddress := "10.240.0.9" |} ] |}.

(** A host whose network "azure" has the id net-1 and two endpoints. *)
Definition testHcn : Hcn :=
  {| ListEndpointsOfNetwork id :=
       if bool_decide (id = "net-1") then inr [webEndpoint; dbEndpoint]
       else inl (External "network not found");
     GetNetworkByName name :=
       if bool_decide (name = "azure") then inr {| NetworkId := "net-1" |}
       else inl (External "network not found") |}.

Definition testNode : DataPlane :=
  {| networkID := "net-1"; nodeName := "node-a"; endpointCache := ∅ |}.

Definition webPod : UpdateNPMPod :=
  {| PodName := "web"; Namespace := "default"; NodeName := "node-a"; PodIP := "10.240.0.5" |}.

Definition lostPod : UpdateNPMPod :=
  {| PodName := "lost"; Namespace := "default"; NodeName := "node-a"; PodIP := "10.240.0.77" |}.

Definition dbPod : UpdateNPMPod :=
  {| PodName := "db"; Namespace := "default"; NodeName := "node-a"; PodIP := "10.240.0.9" |}.

(** [testNode] with the endpoint of [dbPod] cached under its pod key. *)
Definition dbCached : DataPlane :=
  setEndpoint "default/db"
    (Some {| Name := "db-eth0"; ID := "ep-2"; IP := "10.240.0.9"; NetPolReference := ∅ |})
    testNode.

End dataplane_windows.

(** * Properties *)

(** ** The IPSet manager *)

Module ipsets_spec.

Import ipsets.

Section properties.
Context {SetType : Type} `{Env SetType}.

Lemma unlock_lock w (st : State SetType) :
  mu (getMap w st) = false -> setMu w false (setMu w true st) = st.
Proof.
  destruct st as [h [[lc lm] [sc sm] o] ms], w; simpl; intros ->; reflexivity.
Qed.

Lemma with_lock_free {A} w (body : State SetType -> outcome SetType A)
    (st : State SetType) :
  mu (getMap w st) = false ->
  with_lock w body st =
    match body (setMu w true st) with
    | Returned a st' => Returned a (setMu w false st')
    | Blocked => Blocked
    | Panicked => Panicked
    end.
Proof. unfold with_lock. intros ->. reflexivity. Qed.

Lemma with_lock_held {A} w (body : State SetType -> outcome SetType A)
    (st : State SetType) :
  mu (getMap w st) = true -> with_lock w body st = Blocked.
Proof. unfold with_lock. intros ->. reflexivity. Qed.

(** Whatever a function that holds the lock of [w] throughout returns, the
    state it returns has that lock free. *)
Lemma with_lock_returns_free {A} w (body : State SetType -> outcome SetType A)
    (st : State SetType) a st' :
  with_lock w body st = Returned a st' -> mu (getMap w st') = false.
Proof.
  unfold with_lock. destruct (mu (getMap w st)); [discriminate|].
  destruct (body _) as [a0 st0| |]; [|discriminate..].
  intros [= _ <-]. destruct w; reflexivity.
Qed.

(** C7: DeleteFromSet (RemoveFromSet) on a name absent from the hash-set
    cache returns the not-found error "ipset <name> does not exist" and
    leaves the whole state, both caches included, as it was. *)
Theorem C7_DeleteFromSet_missing (st : State SetType) (setName ip podKey : string) :
  mu (setMap (mgr st)) = false ->
  cache (setMap (mgr st)) !! setName = None ->
  DeleteFromSet setName ip podKey st =
    Returned (Some (Errorf DeleteIPSet false ("ipset " +:+ setName +:+ " does not exist"))) st.
Proof.
  intros Hmu Habsent. unfold DeleteFromSet.
  rewrite with_lock_free by exact Hmu. simpl.
  rewrite Habsent. f_equal. apply unlock_lock. exact Hmu.
Qed.

(** C8: AddToList of a name to itself fails with the self-reference error
    "list <name> cannot be added to itself", for every name and every
    state, and changes nothing. *)
Theorem C8_AddToList_self (st : State SetType) (name : string) :
  AddToList name name st =
    Returned (Some (Errorf AppendIPSet false
                      ("list " +:+ name +:+ " cannot be added to itself"))) st.
Proof. unfold AddToList. rewrite bool_decide_eq_true_2 by reflexivity. reflexivity. Qed.

(** [AddToSet] on a cached hash set returns no error and leaves [ip] owned
    by [podKey] in that set; the caches and the set's other fields stay. *)
Lemma AddToSet_cached (st : State SetType) (setName ip podKey : string)
    (set : ptr) (obj : IPSet SetType) :
  isIPv4 ip = true ->
  mu (setMap (mgr st)) = false ->
  cache (setMap (mgr st)) !! setName = Some set ->
  heap st !! set = Some obj ->
  kindOfType (Type_ obj) = HashSet ->
  ∃ st', AddToSet setName ip podKey st = Returned None st' ∧
         mgr st' = mgr st ∧
         heap st' !! set = Some {| Name := Name obj; Type_ := Type_ obj;
                                   IpPodKey := <[ip := podKey]> (IpPodKey obj);
                                   IPSet_ := IPSet_ obj |}.
Proof.
  intros Hip Hmu Hset Hobj Hkind. unfold AddToSet.
  rewrite Hip. simpl. rewrite with_lock_free by exact Hmu. simpl.
  rewrite Hset. unfold addToSet_found. simpl. rewrite Hobj.
  rewrite bool_decide_eq_false_2 by (intros Hne; apply Hne; exact Hkind).
  destruct (IpPodKey obj !! ip) as [cachedPodKey|] eqn:Hown.
  - destruct (decide (cachedPodKey = podKey)) as [->|Hne].
    + rewrite bool_decide_eq_false_2 by (intros Hne; apply Hne; reflexivity).
      eexists. split; [reflexivity|]. rewrite unlock_lock by exact Hmu.
      split; [reflexivity|]. rewrite Hobj. f_equal.
      rewrite insert_id by exact Hown. destruct obj; reflexivity.
    + rewrite bool_decide_eq_true_2 by exact Hne.
      eexists. split; [reflexivity|]. split.
      * destruct st as [h [lm [sc sm] o] ms]. simpl in *. subst sm. reflexivity.
      * simpl. apply lookup_insert_eq.
  - eexists. split; [reflexivity|]. split.
    + destruct st as [h [lm [sc sm] o] ms]. simpl in *. subst sm. reflexivity.
    + simpl. apply lookup_insert_eq.
Qed.

(** C1: on a cached hash set, AddToSet with [k1] and then with [k2] for the
    same IPv4 address return no error and leave the address owned by [k2];
    DeleteFromSet (RemoveFromSet) with the stale key [k1] then returns no
    error and leaves the state, hence the owner [k2], as it was. *)
Theorem C1_overwrite_then_stale_delete
    (st : State SetType) (s ip k1 k2 : string) (set : ptr) (obj : IPSet SetType) :
  isIPv4 ip = true ->
  mu (setMap (mgr st)) = false ->
  cache (setMap (mgr st)) !! s = Some set ->
  heap st !! set = Some obj ->
  kindOfType (Type_ obj) = HashSet ->
  k1 ≠ k2 ->
  ∃ st1 st2,
    AddToSet s ip k1 st = Returned None st1 ∧
    owner st1 s ip = Some k1 ∧
    AddToSet s ip k2 st1 = Returned None st2 ∧
    owner st2 s ip = Some k2 ∧
    DeleteFromSet s ip k1 st2 = Returned None st2.
Proof.
  intros Hip Hmu Hset Hobj Hkind Hne.
  destruct (AddToSet_cached st s ip k1 set obj Hip Hmu Hset Hobj Hkind)
    as (st1 & Hadd1 & Hmgr1 & Hobj1).
  assert (Hmu1 : mu (setMap (mgr st1)) = false) by (rewrite Hmgr1; exact Hmu).
  assert (Hset1 : cache (setMap (mgr st1)) !! s = Some set) by (rewrite Hmgr1; exact Hset).
  destruct (AddToSet_cached st1 s ip k2 set _ Hip Hmu1 Hset1 Hobj1 Hkind)
    as (st2 & Hadd2 & Hmgr2 & Hobj2).
  simpl in Hobj2.
  assert (Hmu2 : mu (setMap (mgr st2)) = false) by (rewrite Hmgr2; exact Hmu1).
  assert (Hset2 : cache (setMap (mgr st2)) !! s = Some set) by (rewrite Hmgr2; exact Hset1).
  exists st1, st2. repeat split; try assumption.
  - unfold owner. rewrite Hset1. simpl. rewrite Hobj1. simpl. apply lookup_insert_eq.
  - unfold owner. rewrite Hset2. simpl. rewrite Hobj2. simpl. apply lookup_insert_eq.
  - unfold DeleteFromSet. rewrite with_lock_free by exact Hmu2. simpl.
    rewrite Hset2, Hobj2. simpl.
    rewrite bool_decide_eq_false_2 by (intros Hk; apply Hk; exact Hkind).
    rewrite lookup_insert_eq. simpl.
    rewrite bool_decide_eq_true_2 by (intros Hk; apply Hne; symmetry; exact Hk).
    f_equal. apply unlock_lock. exact Hmu2.
Qed.

Lemma setCache_unlock w c (st : State SetType) :
  mu (getMap w st) = false ->
  setMu w false (setCache w c (setMu w true st)) = setCache w c st.
Proof.
  destruct st as [h [[lc lm] [sc sm] o] ms], w; simpl; intros ->; reflexivity.
Qed.

(** [CreateIPSet] of a set whose kind selects the cache [w]. *)
Lemma CreateIPSet_valid (st : State SetType) (set : ptr) (obj : IPSet SetType) (w : which) :
  getSetCache st set = Some (inl w) ->
  heap st !! set = Some obj ->
  mu (getMap w st) = false ->
  CreateIPSet set st =
    Returned None
      (if exists_ (getMap w st) (Name obj) then st
       else setCache w (<[Name obj := set]> (cache (getMap w st))) st).
Proof.
  intros Hcache Hobj Hmu. unfold CreateIPSet. rewrite Hcache.
  rewrite with_lock_free by exact Hmu.
  replace (heap (setMu w true st) !! set) with (Some obj)
    by (rewrite <- Hobj; destruct w; reflexivity).
  replace (exists_ (getMap w (setMu w true st)) (Name obj))
    with (exists_ (getMap w st) (Name obj)) by (destruct w; reflexivity).
  destruct (exists_ (getMap w st) (Name obj)).
  - rewrite unlock_lock by exact Hmu. reflexivity.
  - replace (cache (getMap w (setMu w true st))) with (cache (getMap w st))
      by (destruct w; reflexivity).
    rewrite setCache_unlock by exact Hmu. reflexivity.
Qed.

(** C5: CreateIPSet of a set of a valid kind (hash or list) returns no
    error, and a second call with the same argument returns no error and
    leaves the state of the first; when the name is already in the matching
    cache the call changes nothing at all (the cached set is neither
    replaced nor compared). *)
Theorem C5_CreateIPSet_idempotent (st : State SetType) (set : ptr) (obj : IPSet SetType) :
  heap st !! set = Some obj ->
  kindOfType (Type_ obj) ≠ UnknownKind ->
  mu (listMap (mgr st)) = false ->
  mu (setMap (mgr st)) = false ->
  ∃ st1,
    CreateIPSet set st = Returned None st1 ∧
    CreateIPSet set st1 = Returned None st1 ∧
    (∀ w, getSetCache st set = Some (inl w) ->
          is_Some (cache (getMap w st) !! Name obj) -> st1 = st).
Proof.
  intros Hobj Hkind Hlist Hset.
  assert (∃ w, getSetCache st set = Some (inl w)) as [w Hcache].
  { unfold getSetCache, getSetKind. rewrite Hobj. simpl.
    destruct (kindOfType (Type_ obj)); [eexists; reflexivity..|]. congruence. }
  assert (Hmu : mu (getMap w st) = false) by (destruct w; assumption).
  rewrite (CreateIPSet_valid st set obj w Hcache Hobj Hmu).
  eexists. split; [reflexivity|]. split.
  - destruct (exists_ (getMap w st) (Name obj)) eqn:Hex.
    + rewrite (CreateIPSet_valid st set obj w Hcache Hobj Hmu), Hex. reflexivity.
    + set (st1 := setCache w _ st).
      assert (Hcache1 : getSetCache st1 set = Some (inl w))
        by (rewrite <- Hcache; destruct w; reflexivity).
      assert (Hobj1 : heap st1 !! set = Some obj)
        by (rewrite <- Hobj; destruct w; reflexivity).
      assert (Hmu1 : mu (getMap w st1) = false)
        by (rewrite <- Hmu; destruct w; reflexivity).
      rewrite (CreateIPSet_valid st1 set obj w Hcache1 Hobj1 Hmu1).
      assert (Hex1 : exists_ (getMap w st1) (Name obj) = true).
      { unfold exists_. apply bool_decide_eq_true_2.
        exists set. destruct w; simpl; apply lookup_insert_eq. }
      rewrite Hex1. reflexivity.
  - intros w' Hcache' Hsome.
    assert (w' = w) as -> by congruence.
    unfold exists_. rewrite bool_decide_eq_true_2 by exact Hsome. reflexivity.
Qed.

(** C6: AddToSet on a name absent from the hash-set cache never returns
    without an error.  The set it allocates has type [SetType_Unknown]:
    when that type implies the hash kind, the nested CreateIPSet locks the
    mutex AddToSet holds and never returns; when it implies the list kind,
    the set goes to the list cache and the kind check of AddToSet fails;
    otherwise CreateIPSet fails with "unknown Set kind". *)
Theorem C6_AddToSet_absent_set (st : State SetType) (setName ip podKey : string) :
  cache (setMap (mgr st)) !! setName = None ->
  AddToSet setName ip podKey st = Blocked ∨
  ∃ err st', AddToSet setName ip podKey st = Returned (Some err) st'.
Proof.
  intros Habsent. unfold AddToSet.
  destruct (isIPv4 ip); simpl; [|right; eauto].
  destruct (mu (setMap (mgr st))) eqn:Hmu.
  { left. apply with_lock_held. exact Hmu. }
  rewrite with_lock_free by exact Hmu. simpl. rewrite Habsent.
  unfold CreateIPSet, getSetCache, getSetKind. simpl.
  rewrite lookup_insert_eq. simpl.
  destruct (kindOfType SetType_Unknown) eqn:Hkind; simpl.
  - destruct (mu (listMap (mgr st))) eqn:Hlist.
    + left. rewrite with_lock_held; [reflexivity | exact Hlist].
    + rewrite with_lock_free; [|exact Hlist]. simpl. rewrite lookup_insert_eq. simpl.
      right. destruct (exists_ _ setName); unfold addToSet_found; simpl;
        rewrite lookup_insert_eq; simpl; rewrite Hkind;
        (rewrite bool_decide_eq_true_2 by discriminate); eauto.
  - left. reflexivity.
  - right. eauto.
Qed.

(** C9: DeleteFromList changes nothing, whatever it returns; for a list and
    a hash set that are both cached it returns no error and the state it
    was called in, also when the set is a member of the list (the entry of
    the set in the list's member map stays). *)
Theorem C9_DeleteFromList_never_mutates (st : State SetType) (listName setName : string) :
  (∀ err st', DeleteFromList listName setName st = Returned err st' -> st' = st) ∧
  (mu (listMap (mgr st)) = false ->
   cached TheListMap ListSet st listName ->
   cached TheSetMap HashSet st setName ->
   DeleteFromList listName setName st = Returned None st).
Proof.
  split.
  - intros err st'. unfold DeleteFromList, with_lock.
    destruct (mu (getMap TheListMap st)) eqn:Hmu; [discriminate|].
    intros Hret.
    repeat case_match; simplify_eq; auto using unlock_lock.
  - intros Hmu (list & lobj & Hlist & Hlobj & Hlkind) (set & obj & Hset & Hobj & Hkind).
    simpl in Hlist, Hset.
    unfold DeleteFromList. rewrite with_lock_free by exact Hmu. simpl.
    unfold getSetKind. simpl. rewrite Hset, Hobj. simpl. rewrite Hkind.
    rewrite bool_decide_eq_false_2 by (intros Hne; apply Hne; reflexivity). simpl.
    rewrite Hlist, Hlobj, Hlkind.
    rewrite bool_decide_eq_false_2 by (intros Hne; apply Hne; reflexivity).
    destruct (IPSet_ lobj !! setName); f_equal; apply unlock_lock; exact Hmu.
Qed.

Lemma selectorIPs_cached (st : State SetType) (name : string) :
  cached TheSetMap HashSet st name ->
  ∃ ips, selectorIPs st name = inr ips ∧
         ∀ ip, ip ∈ ips ↔ is_Some (owner st name ip).
Proof.
  intros (set & obj & Hset & Hobj & Hkind). simpl in Hset.
  exists (dom (IpPodKey obj)). split.
  - unfold selectorIPs. rewrite Hset, Hobj, Hkind. reflexivity.
  - intros ip. unfold owner. rewrite Hset. simpl. rewrite Hobj. simpl.
    apply elem_of_dom.
Qed.

Lemma intersectSelectorIPs_cached (st : State SetType) (setNames : list string) :
  Forall (cached TheSetMap HashSet st) setNames ->
  ∀ acc, ∃ ips,
    intersectSelectorIPs st setNames acc = inr ips ∧
    ∀ ip, ip ∈ ips ↔ ip ∈ acc ∧ ∀ name, name ∈ setNames -> is_Some (owner st name ip).
Proof.
  induction 1 as [|name rest Hname _ IH]; intros acc; simpl.
  - exists acc. split; [reflexivity|]. intros ip. split; [|tauto].
    intros Hin. split; [exact Hin|]. intros name Hnil. inversion Hnil.
  - destruct (selectorIPs_cached st name Hname) as (members & -> & Hmembers).
    destruct (IH (acc ∩ members)) as (ips & -> & Hips).
    exists ips. split; [reflexivity|]. intros ip.
    rewrite Hips, elem_of_intersection, Hmembers. split.
    + intros [[Hacc Hhere] Hrest]. split; [exact Hacc|].
      intros n [->|Hn]%elem_of_cons; auto.
    + intros [Hacc Hall]. repeat split; [exact Hacc|..].
      * apply Hall. left.
      * intros n Hn. apply Hall. right. exact Hn.
Qed.

(** On names that are all cached hash sets the query succeeds with exactly
    the addresses every named set holds. *)
Lemma GetIPsFromSelectorIPSets_intersection (st : State SetType) (setNames : list string) :
  Forall (cached TheSetMap HashSet st) setNames ->
  ∃ ips, GetIPsFromSelectorIPSets st setNames = inr ips ∧
         ∀ ip, ip ∈ ips ↔
               setNames ≠ [] ∧ ∀ name, name ∈ setNames -> is_Some (owner st name ip).
Proof.
  destruct 1 as [|name rest Hname Hrest]; simpl.
  - exists ∅. split; [reflexivity|]. intros ip. split.
    + intros Hin. apply not_elem_of_empty in Hin. contradiction.
    + intros [Hne _]. contradiction.
  - destruct (selectorIPs_cached st name Hname) as (members & -> & Hmembers).
    destruct (intersectSelectorIPs_cached st rest Hrest members) as (ips & -> & Hips).
    exists ips. split; [reflexivity|]. intros ip. rewrite Hips, Hmembers. split.
    + intros [Hhere Hall]. split; [discriminate|].
      intros n [->|Hn]%elem_of_cons; auto.
    + intros [_ Hall]. split.
      * apply Hall. left.
      * intros n Hn. apply Hall. right. exact Hn.
Qed.

Lemma GetIPsFromSelectorIPSets_permutation (st : State SetType)
    (setNames setNames' : list string) ips :
  Forall (cached TheSetMap HashSet st) setNames ->
  setNames ≡ₚ setNames' ->
  GetIPsFromSelectorIPSets st setNames = inr ips ->
  GetIPsFromSelectorIPSets st setNames' = inr ips.
Proof.
  intros Hall Hperm Hget.
  destruct (GetIPsFromSelectorIPSets_intersection st setNames Hall) as (ips0 & Hget0 & Hips).
  assert (ips0 = ips) as -> by congruence.
  assert (Hall' : Forall (cached TheSetMap HashSet st) setNames')
    by (rewrite <- Hperm; exact Hall).
  destruct (GetIPsFromSelectorIPSets_intersection st setNames' Hall') as (ips' & -> & Hips').
  f_equal. apply set_eq. intros ip. rewrite Hips, Hips'. split.
  - intros [Hne Hin]. split.
    + intros ->. apply Hne. apply Permutation_nil_r.
      first [exact Hperm | symmetry; exact Hperm].
    + intros n Hn. apply Hin. rewrite <- Hperm. exact Hn.
  - intros [Hne Hin]. split.
    + intros ->. apply Hne. apply Permutation_nil_r.
      first [exact Hperm | symmetry; exact Hperm].
    + intros n Hn. apply Hin. rewrite Hperm. exact Hn.
Qed.

(** ** The invariant of the caches and the mutexes *)

Lemma with_lock_returned {A} w (body : State SetType -> outcome SetType A)
    (st : State SetType) a st' :
  with_lock w body st = Returned a st' ->
  mu (getMap w st) = false ∧
  ∃ st'', body (setMu w true st) = Returned a st'' ∧ st' = setMu w false st''.
Proof.
  unfold with_lock. destruct (mu (getMap w st)); [discriminate|].
  destruct (body _) as [a0 st0| |]; [|discriminate..].
  intros [= <- <-]. eauto.
Qed.

Lemma cacheOk_ext w (st st' : State SetType) :
  heap st' = heap st -> cache (getMap w st') = cache (getMap w st) ->
  cacheOk w st -> cacheOk w st'.
Proof. unfold cacheOk. intros -> ->. auto. Qed.

Lemma membersOk_ext (st st' : State SetType) :
  heap st' = heap st -> membersOk st -> membersOk st'.
Proof. unfold membersOk. intros ->. auto. Qed.

Lemma consistent_ext (st st' : State SetType) :
  heap st' = heap st ->
  cache (listMap (mgr st')) = cache (listMap (mgr st)) ->
  cache (setMap (mgr st')) = cache (setMap (mgr st)) ->
  consistent st -> consistent st'.
Proof.
  intros Hh Hl Hs (Hlist & Hset & Hmem). repeat split.
  - exact (cacheOk_ext TheListMap st st' Hh Hl Hlist).
  - exact (cacheOk_ext TheSetMap st st' Hh Hs Hset).
  - exact (membersOk_ext st st' Hh Hmem).
Qed.

Lemma consistent_setMu w b (st : State SetType) :
  consistent (setMu w b st) <-> consistent st.
Proof.
  split; apply consistent_ext; destruct w; reflexivity.
Qed.

Lemma consistent_IncEntries name (st : State SetType) :
  consistent st -> consistent (IncEntries name st).
Proof. apply consistent_ext; reflexivity. Qed.

Lemma consistent_DecEntries name (st : State SetType) :
  consistent st -> consistent (DecEntries name st).
Proof. apply consistent_ext; reflexivity. Qed.

(** Overwriting an allocated set keeps the invariant when name, type and
    the members' being allocated stay. *)
Lemma consistent_store (st : State SetType) p (obj obj' : IPSet SetType) :
  heap st !! p = Some obj ->
  Name obj' = Name obj -> Type_ obj' = Type_ obj ->
  (∀ name q, IPSet_ obj' !! name = Some q -> is_Some (heap st !! q)) ->
  consistent st -> consistent (store p obj' st).
Proof.
  intros Hobj Hname Htype Hmembers (Hlist & Hset & Hmem).
  assert (Hcache : ∀ w, cacheOk w st -> cacheOk w (store p obj' st)).
  { intros w Hw name q Hq.
    assert (Hq' : cache (getMap w st) !! name = Some q) by (destruct w; exact Hq).
    destruct (Hw name q Hq') as (o & Ho & Hn & Hk). simpl.
    destruct (decide (p = q)) as [->|Hne].
    - exists obj'. rewrite lookup_insert_eq. rewrite Ho in Hobj. injection Hobj as ->.
      rewrite Hname, Htype. auto.
    - exists o. rewrite lookup_insert_ne by exact Hne. auto. }
  assert (Halloc : ∀ q, is_Some (heap st !! q) -> is_Some (heap (store p obj' st) !! q)).
  { intros q Hq. simpl. destruct (decide (p = q)) as [->|Hne].
    - rewrite lookup_insert_eq. eauto.
    - rewrite lookup_insert_ne by exact Hne. exact Hq. }
  repeat split; [apply Hcache, Hlist | apply Hcache, Hset |].
  intros q o name r Ho Hr. simpl in Ho. apply Halloc.
  destruct (decide (p = q)) as [->|Hne].
  - rewrite lookup_insert_eq in Ho. injection Ho as <-. eapply Hmembers, Hr.
  - rewrite lookup_insert_ne in Ho by exact Hne. eapply Hmem; eassumption.
Qed.

(** Allocating a set without members at a new address keeps the invariant. *)
Lemma consistent_NewIPSet name ty (st : State SetType) :
  consistent st -> consistent (NewIPSet name ty st).2.
Proof.
  intros (Hlist & Hset & Hmem). unfold NewIPSet. simpl.
  set (p := fresh (dom (heap st))).
  assert (Hfresh : heap st !! p = None).
  { apply not_elem_of_dom. apply is_fresh. }
  assert (Hkeep : ∀ (new : IPSet SetType) q o,
            heap st !! q = Some o -> <[p := new]> (heap st) !! q = Some o).
  { intros new q o Hq. rewrite lookup_insert_ne; [exact Hq|]. intros ->. congruence. }
  assert (Hcache : ∀ w, cacheOk w st ->
            cacheOk w (store p {| Name := name; Type_ := ty; IpPodKey := ∅; IPSet_ := ∅ |} st)).
  { intros w Hw n q Hq.
    assert (Hq' : cache (getMap w st) !! n = Some q) by (destruct w; exact Hq).
    destruct (Hw n q Hq') as (o & Ho & Hn & Hk). exists o. simpl. eauto. }
  repeat split; [apply Hcache, Hlist | apply Hcache, Hset |].
  intros q o n r Ho Hr. simpl in *.
  destruct (decide (p = q)) as [->|Hne].
  - rewrite lookup_insert_eq in Ho. injection Ho as <-. simpl in Hr.
    rewrite lookup_empty in Hr. discriminate.
  - rewrite lookup_insert_ne in Ho by exact Hne.
    destruct (Hmem q o n r Ho Hr) as [o' Ho']. eauto.
Qed.

(** Caching an allocated set of the cache's kind under its name. *)
Lemma consistent_cache w (st : State SetType) p (obj : IPSet SetType) :
  heap st !! p = Some obj -> kindOfType (Type_ obj) = kindOf w ->
  consistent st ->
  consistent (setCache w (<[Name obj := p]> (cache (getMap w st))) st).
Proof.
  intros Hobj Hkind (Hlist & Hset & Hmem).
  assert (Hnew : ∀ name q, <[Name obj := p]> (cache (getMap w st)) !! name = Some q ->
            ∃ o, heap st !! q = Some o ∧ Name o = name ∧ kindOfType (Type_ o) = kindOf w).
  { intros name q. destruct (decide (Name obj = name)) as [<-|Hne].
    - rewrite lookup_insert_eq. intros [= <-]. eauto.
    - rewrite lookup_insert_ne by exact Hne. destruct w; [apply Hlist | apply Hset]. }
  destruct w; (repeat split; [| |exact Hmem]); intros name q Hq; simpl in Hq.
  - apply Hnew. exact Hq.
  - apply Hset. exact Hq.
  - apply Hlist. exact Hq.
  - apply Hnew. exact Hq.
Qed.

(** Dropping entries of a cache. *)
Lemma consistent_uncache w c (st : State SetType) :
  c ⊆ cache (getMap w st) -> consistent st -> consistent (setCache w c st).
Proof.
  intros Hsub (Hlist & Hset & Hmem).
  assert (Hless : ∀ name q, c !! name = Some q -> cache (getMap w st) !! name = Some q).
  { intros name q Hq. eapply lookup_weaken; eassumption. }
  destruct w; (repeat split; [| |exact Hmem]); intros name q Hq; simpl in Hq.
  - apply Hlist, Hless, Hq.
  - apply Hset, Hq.
  - apply Hlist, Hq.
  - apply Hset, Hless, Hq.
Qed.

Lemma keeps_refl (st : State SetType) : keeps st st.
Proof. split; [auto | split; reflexivity]. Qed.

Lemma keeps_trans (st1 st2 st3 : State SetType) :
  keeps st1 st2 -> keeps st2 st3 -> keeps st1 st3.
Proof.
  intros (Hc12 & Hl12 & Hs12) (Hc23 & Hl23 & Hs23).
  split; [auto | split; congruence].
Qed.

Lemma keeps_with_lock {A} w (body : State SetType -> outcome SetType A)
    (st : State SetType) a st' :
  (∀ st'', body (setMu w true st) = Returned a st'' -> keeps (setMu w true st) st'') ->
  with_lock w body st = Returned a st' -> keeps st st'.
Proof.
  intros Hbody (Hmu & st'' & Hret & ->)%with_lock_returned.
  destruct (Hbody st'' Hret) as (Hc & Hl & Hs). split.
  - intros Hst. apply consistent_setMu, Hc, consistent_setMu, Hst.
  - unfold sameLocks in *. destruct w; simpl in *; split; congruence.
Qed.

Lemma keeps_IncEntries name (st : State SetType) : keeps st (IncEntries name st).
Proof. split; [apply consistent_IncEntries | split; reflexivity]. Qed.

Lemma keeps_DecEntries name (st : State SetType) : keeps st (DecEntries name st).
Proof. split; [apply consistent_DecEntries | split; reflexivity]. Qed.

Lemma keeps_store (st : State SetType) p (obj obj' : IPSet SetType) :
  heap st !! p = Some obj ->
  Name obj' = Name obj -> Type_ obj' = Type_ obj ->
  (∀ name q, IPSet_ obj' !! name = Some q ->
             IPSet_ obj !! name = Some q ∨ is_Some (heap st !! q)) ->
  keeps st (store p obj' st).
Proof.
  intros Hobj Hname Htype Hmembers. split; [|split; reflexivity].
  intros Hst. apply (consistent_store st p obj obj' Hobj Hname Htype); [|exact Hst].
  intros name q Hq. destruct (Hmembers name q Hq) as [Hold|Halloc]; [|exact Halloc].
  destruct Hst as (_ & _ & Hmem). eapply Hmem; eassumption.
Qed.

Lemma keeps_NewIPSet name ty (st : State SetType) : keeps st (NewIPSet name ty st).2.
Proof. split; [apply consistent_NewIPSet | split; reflexivity]. Qed.

Lemma keeps_CreateIPSet set (st : State SetType) r st' :
  CreateIPSet set st = Returned r st' -> keeps st st'.
Proof.
  unfold CreateIPSet, getSetCache, getSetKind.
  destruct (heap st !! set) as [obj|] eqn:Hobj; simpl; [|discriminate].
  assert (Hcases : ∀ w, kindOfType (Type_ obj) = kindOf w ->
    with_lock w (λ st0, match heap st0 !! set with
      | Some obj0 =>
          if exists_ (getMap w st0) (Name obj0) then Returned None st0
          else Returned None (setCache w (<[Name obj0 := set]> (cache (getMap w st0))) st0)
      | None => Panicked
      end) st = Returned r st' -> keeps st st').
  { intros w Hkind. apply keeps_with_lock. intros st''.
    replace (heap (setMu w true st) !! set) with (Some obj)
      by (rewrite <- Hobj; destruct w; reflexivity).
    destruct (exists_ _ _); intros ?; simplify_eq; [apply keeps_refl|].
    split.
    - apply consistent_cache; [|exact Hkind].
      rewrite <- Hobj. destruct w; reflexivity.
    - destruct w; split; reflexivity. }
  destruct (kindOfType (Type_ obj)) eqn:Hkind.
  - apply (Hcases TheListMap). reflexivity.
  - apply (Hcases TheSetMap). reflexivity.
  - intros ?; simplify_eq. apply keeps_refl.
Qed.

Lemma keeps_addToSet_found setName ip podKey set (st : State SetType) r st' :
  addToSet_found setName ip podKey set st = Returned r st' -> keeps st st'.
Proof.
  unfold addToSet_found. destruct (heap st !! set) as [obj|] eqn:Hobj; [|discriminate].
  destruct (bool_decide _); [intros ?; simplify_eq; apply keeps_refl|].
  assert (Hstore : keeps st (store set {| Name := Name obj; Type_ := Type_ obj;
                                          IpPodKey := <[ip := podKey]> (IpPodKey obj);
                                          IPSet_ := IPSet_ obj |} st)).
  { apply (keeps_store st set obj); auto. }
  destruct (IpPodKey obj !! ip) as [cachedPodKey|].
  - destruct (bool_decide _); intros ?; simplify_eq; [exact Hstore | apply keeps_refl].
  - intros ?; simplify_eq. eapply keeps_trans; [exact Hstore | apply keeps_IncEntries].
Qed.

Lemma keeps_AddToSet setName ip podKey (st : State SetType) r st' :
  AddToSet setName ip podKey st = Returned r st' -> keeps st st'.
Proof.
  unfold AddToSet. destruct (isIPv4 ip); simpl; [|intros ?; simplify_eq; apply keeps_refl].
  apply keeps_with_lock. intros st''. set (st0 := setMu TheSetMap true st).
  destruct (cache (setMap (mgr st0)) !! setName) as [set|].
  - apply keeps_addToSet_found.
  - pose proof (keeps_NewIPSet setName SetType_Unknown st0) as Hnew.
    unfold NewIPSet in Hnew |- *. simpl in Hnew |- *.
    destruct (CreateIPSet _ _) as [[err|] st2| |] eqn:Hcreate; [| |discriminate..].
    + intros ?; simplify_eq. eapply keeps_trans; [exact Hnew|]. eapply keeps_CreateIPSet, Hcreate.
    + intros Hfound. eapply keeps_trans; [exact Hnew|].
      eapply keeps_trans; [eapply keeps_CreateIPSet, Hcreate|].
      eapply keeps_addToSet_found, Hfound.
Qed.

Lemma keeps_DeleteFromSet setName ip podKey (st : State SetType) r st' :
  DeleteFromSet setName ip podKey st = Returned r st' -> keeps st st'.
Proof.
  unfold DeleteFromSet. apply keeps_with_lock. intros st''.
  set (st0 := setMu TheSetMap true st).
  destruct (cache (setMap (mgr st0)) !! setName) as [set|];
    [|intros ?; simplify_eq; apply keeps_refl].
  destruct (heap st0 !! set) as [obj|] eqn:Hobj; [|discriminate].
  destruct (bool_decide _); [intros ?; simplify_eq; apply keeps_refl|].
  destruct (bool_decide _); intros ?; simplify_eq; [apply keeps_refl|].
  eapply keeps_trans; [|apply keeps_DecEntries].
  apply (keeps_store st0 set obj); auto.
Qed.

Lemma keeps_AddToList listName setName (st : State SetType) r st' :
  AddToList listName setName st = Returned r st' -> keeps st st'.
Proof.
  unfold AddToList. destruct (bool_decide (listName = setName));
    [intros ?; simplify_eq; apply keeps_refl|].
  apply keeps_with_lock. intros st''. set (st0 := setMu TheListMap true st).
  destruct (cache (setMap (mgr st0)) !! setName) as [set|];
    [|intros ?; simplify_eq; apply keeps_refl].
  unfold getSetKind. destruct (heap st0 !! set) as [obj|] eqn:Hobj; simpl; [|discriminate].
  destruct (_ && _); [intros ?; simplify_eq; apply keeps_refl|].
  destruct (cache (listMap _) !! listName) as [list|];
    [|intros ?; simplify_eq; apply keeps_refl].
  destruct (heap _ !! list) as [lobj|] eqn:Hlobn; [|discriminate].
  assert (Hlobj : heap st0 !! list = Some lobj) by exact Hlobn.
  destruct (bool_decide _); [intros ?; simplify_eq; apply keeps_refl|].
  assert (Hstore : keeps st0 (store list {| Name := Name lobj; Type_ := Type_ lobj;
                                            IpPodKey := IpPodKey lobj;
                                            IPSet_ := <[setName := set]> (IPSet_ lobj) |} st0)).
  { apply (keeps_store st0 list lobj); [exact Hlobj|reflexivity..|]. simpl.
    intros name q. destruct (decide (setName = name)) as [->|Hne].
    - rewrite lookup_insert_eq. intros ?; simplify_eq. right. exists obj. exact Hobj.
    - rewrite lookup_insert_ne by exact Hne. auto. }
  destruct (IPSet_ lobj !! setName) as [listSet|].
  - destruct (bool_decide _); intros ?; simplify_eq; [apply keeps_refl | exact Hstore].
  - intros ?; simplify_eq. eapply keeps_trans; [exact Hstore | apply keeps_IncEntries].
Qed.

Lemma DeleteFromList_same listName setName (st : State SetType) r st' :
  DeleteFromList listName setName st = Returned r st' -> st' = st.
Proof.
  unfold DeleteFromList, with_lock.
  destruct (mu (getMap TheListMap st)) eqn:Hmu; [discriminate|].
  intros Hret.
  repeat case_match; simplify_eq; auto using unlock_lock.
Qed.

Lemma keeps_DeleteFromList listName setName (st : State SetType) r st' :
  DeleteFromList listName setName st = Returned r st' -> keeps st st'.
Proof. intros ->%DeleteFromList_same. apply keeps_refl. Qed.

Lemma keeps_DeleteList name (st : State SetType) r st' :
  DeleteList name st = Returned r st' -> keeps st st'.
Proof.
  unfold DeleteList. apply keeps_with_lock. intros st'' ?; simplify_eq; split.
  - apply consistent_uncache. apply delete_subseteq.
  - split; reflexivity.
Qed.

Lemma keeps_DeleteSet name (st : State SetType) r st' :
  DeleteSet name st = Returned r st' -> keeps st st'.
Proof.
  unfold DeleteSet. apply keeps_with_lock. intros st'' ?; simplify_eq; split.
  - apply consistent_uncache. apply delete_subseteq.
  - split; reflexivity.
Qed.

Lemma keeps_Clear (st : State SetType) r st' :
  Clear st = Returned r st' -> keeps st st'.
Proof.
  unfold Clear. apply keeps_with_lock. intros st'' Hinner.
  eapply keeps_trans; [|eapply keeps_with_lock, Hinner].
  - split; [|split; reflexivity].
    apply consistent_uncache. apply map_empty_subseteq.
  - intros st3 Heq. simpl in Heq. simplify_eq. split; [|split; reflexivity].
    apply consistent_uncache. apply map_empty_subseteq.
Qed.

Lemma keeps_perform c (st : State SetType) r st' :
  perform c st = Returned r st' -> keeps st st'.
Proof.
  destruct c; simpl.
  - unfold CreateNewIPSet. pose proof (keeps_NewIPSet name ty st) as Hnew.
    destruct (NewIPSet name ty st) as [set st1]. intros Hcreate.
    eapply keeps_trans; [exact Hnew | eapply keeps_CreateIPSet, Hcreate].
  - apply keeps_AddToSet.
  - apply keeps_DeleteFromSet.
  - apply keeps_AddToList.
  - apply keeps_DeleteFromList.
  - destruct (DeleteList name st) as [u st0| |] eqn:Hcall; [|discriminate..].
    simpl. intros ?; simplify_eq. eapply keeps_DeleteList, Hcall.
  - destruct (DeleteSet name st) as [u st0| |] eqn:Hcall; [|discriminate..].
    simpl. intros ?; simplify_eq. eapply keeps_DeleteSet, Hcall.
  - destruct (Clear st) as [u st0| |] eqn:Hcall; [|discriminate..].
    simpl. intros ?; simplify_eq. eapply keeps_Clear, Hcall.
Qed.

(** X1: every call of the manager that returns keeps the invariant of the
    caches: each cached pointer is an allocated set of its cache's kind under
    its own name, and each member of a list is allocated. *)
Theorem X1_calls_keep_caches_consistent (c : call SetType) (st : State SetType) r st' :
  consistent st -> perform c st = Returned r st' -> consistent st'.
Proof. intros Hst Hcall. apply (keeps_perform c st r st' Hcall), Hst. Qed.

(** X2: every call of the manager that returns leaves both mutexes as it
    found them; no path returns with a mutex it took. *)
Theorem X2_calls_release_mutexes (c : call SetType) (st : State SetType) r st' :
  perform c st = Returned r st' -> sameLocks st st'.
Proof. intros Hcall. apply (keeps_perform c st r st' Hcall). Qed.

Lemma addToSet_found_returns setName ip podKey set (st : State SetType) :
  is_Some (heap st !! set) ->
  ∃ r st', addToSet_found setName ip podKey set st = Returned r st'.
Proof.
  intros [obj Hobj]. unfold addToSet_found. rewrite Hobj.
  repeat case_match; eauto.
Qed.

Lemma CreateIPSet_returns set (st : State SetType) obj :
  heap st !! set = Some obj ->
  (∀ w, kindOfType (Type_ obj) = kindOf w -> mu (getMap w st) = false) ->
  ∃ r st', CreateIPSet set st = Returned r st' ∧ heap st' = heap st.
Proof.
  intros Hobj Hfree.
  destruct (kindOfType (Type_ obj)) eqn:Hkind.
  - rewrite (CreateIPSet_valid st set obj TheListMap); [| |exact Hobj|].
    + eexists _, _. split; [reflexivity|]. destruct (exists_ _ _); reflexivity.
    + unfold getSetCache, getSetKind. rewrite Hobj. simpl. rewrite Hkind. reflexivity.
    + apply Hfree. reflexivity.
  - rewrite (CreateIPSet_valid st set obj TheSetMap); [| |exact Hobj|].
    + eexists _, _. split; [reflexivity|]. destruct (exists_ _ _); reflexivity.
    + unfold getSetCache, getSetKind. rewrite Hobj. simpl. rewrite Hkind. reflexivity.
    + apply Hfree. reflexivity.
  - unfold CreateIPSet, getSetCache, getSetKind. rewrite Hobj. simpl. rewrite Hkind.
    eauto.
Qed.

Lemma with_lock_returns {A} w (body : State SetType -> outcome SetType A)
    (st : State SetType) :
  mu (getMap w st) = false ->
  (∃ a st'', body (setMu w true st) = Returned a st'') ->
  ∃ a st', with_lock w body st = Returned a st'.
Proof.
  intros Hmu (a & st'' & Hbody). rewrite with_lock_free by exact Hmu.
  rewrite Hbody. eauto.
Qed.

Lemma perform_progress (c : call SetType) (st : State SetType) :
  consistent st -> unlocked st ->
  (∃ r st', perform c st = Returned r st') ∨
  (perform c st = Blocked ∧
   ∃ setName ip podKey,
     c = CallAddToSet setName ip podKey ∧ isIPv4 ip = true ∧
     cache (setMap (mgr st)) !! setName = None ∧
     kindOfType SetType_Unknown = HashSet).
Proof.
  intros (Hlist & Hset & Hmem) [Hmul Hmus].
  destruct c; simpl.
  - (* CreateIPSet(NewIPSet(name, ty)) *)
    left. unfold CreateNewIPSet, NewIPSet.
    destruct (CreateIPSet_returns (fresh (dom (heap st)))
                (store (fresh (dom (heap st)))
                   {| Name := name; Type_ := ty; IpPodKey := ∅; IPSet_ := ∅ |} st)
                {| Name := name; Type_ := ty; IpPodKey := ∅; IPSet_ := ∅ |})
      as (r & st' & Hret & _).
    + simpl. apply lookup_insert_eq.
    + intros [] _; assumption.
    + eauto.
  - (* AddToSet *)
    unfold AddToSet. destruct (isIPv4 ip) eqn:Hip; simpl; [|left; eauto].
    destruct (cache (setMap (mgr st)) !! setName) as [set|] eqn:Hcached.
    + left. apply with_lock_returns; [exact Hmus|]. simpl. rewrite Hcached.
      apply addToSet_found_returns.
      destruct (Hset setName set Hcached) as (obj & Hobj & _). simpl. eauto.
    + rewrite with_lock_free by exact Hmus. simpl. rewrite Hcached.
      unfold CreateIPSet, getSetCache, getSetKind. simpl.
      rewrite lookup_insert_eq. simpl.
      destruct (kindOfType SetType_Unknown) eqn:Hkind; simpl.
      * left. rewrite with_lock_free; [|exact Hmul]. simpl.
        rewrite lookup_insert_eq. simpl.
        destruct (exists_ _ setName); unfold addToSet_found; simpl;
          rewrite lookup_insert_eq; simpl; rewrite Hkind;
          (rewrite bool_decide_eq_true_2 by discriminate); eauto.
      * right. split; [reflexivity|]. eauto 10.
      * left. eauto.
  - (* DeleteFromSet *)
    left. unfold DeleteFromSet. apply with_lock_returns; [exact Hmus|]. simpl.
    destruct (cache (setMap (mgr st)) !! setName) as [set|] eqn:Hcached; [|eauto].
    destruct (Hset setName set Hcached) as (obj & Hobj & _). rewrite Hobj.
    repeat case_match; eauto.
  - (* AddToList *)
    left. unfold AddToList. destruct (bool_decide (listName = setName)); [eauto|].
    apply with_lock_returns; [exact Hmul|]. simpl.
    destruct (cache (setMap (mgr st)) !! setName) as [set|] eqn:Hcached; [|eauto].
    destruct (Hset setName set Hcached) as (obj & Hobj & _).
    unfold getSetKind. simpl. rewrite Hobj. simpl.
    destruct (_ && _); [eauto|].
    destruct (cache (listMap (mgr st)) !! listName) as [list|] eqn:Hlcached; [|eauto].
    destruct (Hlist listName list Hlcached) as (lobj & Hlobj & _). rewrite Hlobj.
    repeat case_match; eauto.
  - (* DeleteFromList *)
    left. unfold DeleteFromList. apply with_lock_returns; [exact Hmul|]. simpl.
    destruct (cache (setMap (mgr st)) !! setName) as [set|] eqn:Hcached; [|eauto].
    destruct (Hset setName set Hcached) as (obj & Hobj & _).
    unfold getSetKind. simpl. rewrite Hobj. simpl.
    destruct (bool_decide _); [eauto|]. destruct (_ && _); [eauto|].
    destruct (cache (listMap (mgr st)) !! listName) as [list|] eqn:Hlcached; [|eauto].
    destruct (Hlist listName list Hlcached) as (lobj & Hlobj & _). rewrite Hlobj.
    repeat case_match; eauto.
  - left. unfold DeleteList. rewrite with_lock_free by exact Hmul. simpl. eauto.
  - left. unfold DeleteSet. rewrite with_lock_free by exact Hmus. simpl. eauto.
  - left. unfold Clear. rewrite with_lock_free by exact Hmul.
    rewrite with_lock_free by exact Hmus. simpl. eauto.
Qed.

(** A new manager is consistent, and so is every state it reaches, with
    both mutexes free. *)
Lemma reachable_consistent (st : State SetType) :
  reachable st -> consistent st ∧ unlocked st.
Proof.
  induction 1 as [|st c r st' _ [Hst Hfree] Hcall].
  - split; [|split; reflexivity]. split; [|split].
    + intros name p Hp. simpl in Hp. rewrite lookup_empty in Hp. discriminate.
    + intros name p Hp. simpl in Hp. rewrite lookup_empty in Hp. discriminate.
    + intros p obj name q Hp. simpl in Hp. rewrite lookup_empty in Hp. discriminate.
  - destruct (keeps_perform c st r st' Hcall) as (Hkeep & Hl & Hs).
    split; [auto|]. destruct Hfree. split; congruence.
Qed.

Lemma run_reachable (calls : list (call SetType)) (st : State SetType) r st' :
  reachable st -> run (map perform calls) st = Returned r st' -> reachable st'.
Proof.
  revert st. induction calls as [|c calls IH]; intros st Hst; simpl.
  - intros ?; simplify_eq. exact Hst.
  - destruct (perform c st) as [[err|] st1| |] eqn:Hcall; [| |discriminate..].
    + intros ?; simplify_eq. exact (reachable_call st c (Some err) st' Hst Hcall).
    + apply IH. exact (reachable_call st c None st1 Hst Hcall).
Qed.


(** X4: whatever calls a new manager has returned from, its caches are
    consistent, its mutexes are free, and the next call never dereferences
    a nil pointer. *)
Theorem X4_new_manager_never_panics (st : State SetType) (c : call SetType) :
  reachable st -> consistent st ∧ unlocked st ∧ perform c st ≠ Panicked.
Proof.
  intros [Hst Hfree]%reachable_consistent. split; [exact Hst|]. split; [exact Hfree|].
  destruct (perform_progress c st Hst Hfree) as [(r & st' & ->)|[-> _]]; discriminate.
Qed.

(** ** Membership of hash sets *)

(** [AddToSet] on a cached hash set, with the heap it leaves. *)
Lemma AddToSet_cached_heap (st : State SetType) (setName ip podKey : string)
    (set : ptr) (obj : IPSet SetType) :
  isIPv4 ip = true ->
  mu (setMap (mgr st)) = false ->
  cache (setMap (mgr st)) !! setName = Some set ->
  heap st !! set = Some obj ->
  kindOfType (Type_ obj) = HashSet ->
  ∃ st', AddToSet setName ip podKey st = Returned None st' ∧
         mgr st' = mgr st ∧
         heap st' = <[set := {| Name := Name obj; Type_ := Type_ obj;
                                IpPodKey := <[ip := podKey]> (IpPodKey obj);
                                IPSet_ := IPSet_ obj |}]> (heap st) ∧
         metrics st' = match IpPodKey obj !! ip with
                       | Some _ => metrics st
                       | None => metrics (IncEntries setName st)
                       end.
Proof.
  intros Hip Hmu Hset Hobj Hkind. unfold AddToSet.
  rewrite Hip. simpl. rewrite with_lock_free by exact Hmu. simpl.
  rewrite Hset. unfold addToSet_found. simpl. rewrite Hobj.
  rewrite bool_decide_eq_false_2 by (intros Hne; apply Hne; exact Hkind).
  assert (Hmgr : ∀ (h : gmap ptr (IPSet SetType)) ms,
            mgr (setMu TheSetMap false (mkState h (mgr (setMu TheSetMap true st)) ms))
            = mgr st).
  { intros h ms. destruct st as [h0 [lm [sc sm] o] ms0]. simpl in *. subst sm. reflexivity. }
  destruct (IpPodKey obj !! ip) as [cachedPodKey|] eqn:Hown.
  - destruct (decide (cachedPodKey = podKey)) as [->|Hne].
    + rewrite bool_decide_eq_false_2 by (intros Hne; apply Hne; reflexivity).
      eexists. split; [reflexivity|]. rewrite unlock_lock by exact Hmu.
      split; [reflexivity|]. split; [|reflexivity].
      rewrite (insert_id (IpPodKey obj)) by exact Hown.
      symmetry. apply insert_id. rewrite Hobj. f_equal. destruct obj; reflexivity.
    + rewrite bool_decide_eq_true_2 by exact Hne.
      eexists. split; [reflexivity|]. split; [apply Hmgr|]. split; reflexivity.
  - eexists. split; [reflexivity|]. split; [apply Hmgr|]. split; reflexivity.
Qed.

(** X5: AddToSet is idempotent on a cached hash set: a second call with the
    same address and pod key returns no error and leaves the state of the
    first call, metrics included. *)
Theorem X5_AddToSet_idempotent (st : State SetType) (setName ip podKey : string)
    (set : ptr) (obj : IPSet SetType) :
  isIPv4 ip = true ->
  mu (setMap (mgr st)) = false ->
  cache (setMap (mgr st)) !! setName = Some set ->
  heap st !! set = Some obj ->
  kindOfType (Type_ obj) = HashSet ->
  ∃ st1, AddToSet setName ip podKey st = Returned None st1 ∧
         AddToSet setName ip podKey st1 = Returned None st1.
Proof.
  intros Hip Hmu Hset Hobj Hkind.
  destruct (AddToSet_cached_heap st setName ip podKey set obj Hip Hmu Hset Hobj Hkind)
    as (st1 & Hadd & Hmgr & Hheap & _).
  exists st1. split; [exact Hadd|].
  assert (Hmu1 : mu (setMap (mgr st1)) = false) by (rewrite Hmgr; exact Hmu).
  unfold AddToSet. rewrite Hip. simpl. rewrite with_lock_free by exact Hmu1. simpl.
  rewrite Hmgr, Hset. unfold addToSet_found. simpl. rewrite Hheap, lookup_insert_eq. simpl.
  rewrite bool_decide_eq_false_2 by (intros Hne; apply Hne; exact Hkind).
  rewrite lookup_insert_eq.
  rewrite bool_decide_eq_false_2 by (intros Hne; apply Hne; reflexivity).
  f_equal. apply unlock_lock. exact Hmu1.
Qed.

(** X6: AddToSet changes the owner of no other address, in any set, and
    leaves both caches as they were. *)
Theorem X6_AddToSet_frame (st : State SetType) (setName ip podKey : string)
    (set : ptr) (obj : IPSet SetType) :
  isIPv4 ip = true ->
  mu (setMap (mgr st)) = false ->
  cache (setMap (mgr st)) !! setName = Some set ->
  heap st !! set = Some obj ->
  kindOfType (Type_ obj) = HashSet ->
  ∃ st', AddToSet setName ip podKey st = Returned None st' ∧
         mgr st' = mgr st ∧
         ∀ name ip', ip' ≠ ip -> owner st' name ip' = owner st name ip'.
Proof.
  intros Hip Hmu Hset Hobj Hkind.
  destruct (AddToSet_cached_heap st setName ip podKey set obj Hip Hmu Hset Hobj Hkind)
    as (st' & Hadd & Hmgr & Hheap & _).
  exists st'. split; [exact Hadd|]. split; [exact Hmgr|].
  intros name ip' Hne. unfold owner. rewrite Hmgr, Hheap.
  destruct (cache (setMap (mgr st)) !! name) as [q|]; [simpl|reflexivity].
  destruct (decide (set = q)) as [<-|Hq].
  - rewrite lookup_insert_eq, Hobj. simpl. apply lookup_insert_ne. congruence.
  - rewrite lookup_insert_ne by exact Hq. reflexivity.
Qed.

(** [DeleteFromSet] on a cached hash set. *)
Lemma DeleteFromSet_cached (st : State SetType) (setName ip podKey : string)
    (set : ptr) (obj : IPSet SetType) :
  mu (setMap (mgr st)) = false ->
  cache (setMap (mgr st)) !! setName = Some set ->
  heap st !! set = Some obj ->
  kindOfType (Type_ obj) = HashSet ->
  DeleteFromSet setName ip podKey st =
    Returned None
      (if bool_decide (default "" (IpPodKey obj !! ip) ≠ podKey) then st
       else setMu TheSetMap false
              (DecEntries setName
                 (store set {| Name := Name obj; Type_ := Type_ obj;
                               IpPodKey := delete ip (IpPodKey obj);
                               IPSet_ := IPSet_ obj |} (setMu TheSetMap true st)))).
Proof.
  intros Hmu Hset Hobj Hkind. unfold DeleteFromSet.
  rewrite with_lock_free by exact Hmu. simpl. rewrite Hset, Hobj.
  rewrite bool_decide_eq_false_2 by (intros Hne; apply Hne; exact Hkind).
  destruct (bool_decide _); [|reflexivity].
  f_equal. apply unlock_lock. exact Hmu.
Qed.

(** X7: on a cached hash set that does not hold the address, AddToSet
    followed by DeleteFromSet with the same pod key gives back the heap, the
    caches and the count of entries of the start; the inventory of every set
    reads as before. *)
Theorem X7_AddToSet_DeleteFromSet_round_trip
    (st : State SetType) (setName ip podKey : string) (set : ptr) (obj : IPSet SetType) :
  isIPv4 ip = true ->
  mu (setMap (mgr st)) = false ->
  cache (setMap (mgr st)) !! setName = Some set ->
  heap st !! set = Some obj ->
  kindOfType (Type_ obj) = HashSet ->
  IpPodKey obj !! ip = None ->
  ∃ st1 st2,
    AddToSet setName ip podKey st = Returned None st1 ∧
    owner st1 setName ip = Some podKey ∧
    DeleteFromSet setName ip podKey st1 = Returned None st2 ∧
    heap st2 = heap st ∧ mgr st2 = mgr st ∧
    NumIPSetEntries (metrics st2) = NumIPSetEntries (metrics st) ∧
    ∀ name, default 0%Z (IPSetInventory (metrics st2) !! name)
            = default 0%Z (IPSetInventory (metrics st) !! name).
Proof.
  intros Hip Hmu Hset Hobj Hkind Hnew.
  destruct (AddToSet_cached_heap st setName ip podKey set obj Hip Hmu Hset Hobj Hkind)
    as (st1 & Hadd & Hmgr & Hheap & Hmetrics).
  rewrite Hnew in Hmetrics.
  assert (Hmu1 : mu (setMap (mgr st1)) = false) by (rewrite Hmgr; exact Hmu).
  assert (Hset1 : cache (setMap (mgr st1)) !! setName = Some set) by (rewrite Hmgr; exact Hset).
  assert (Hobj1 : heap st1 !! set = Some {| Name := Name obj; Type_ := Type_ obj;
                                            IpPodKey := <[ip := podKey]> (IpPodKey obj);
                                            IPSet_ := IPSet_ obj |})
    by (rewrite Hheap; apply lookup_insert_eq).
  eexists st1, _. split; [exact Hadd|]. split.
  { unfold owner. rewrite Hset1. simpl. rewrite Hobj1. simpl. apply lookup_insert_eq. }
  split.
  { rewrite (DeleteFromSet_cached st1 setName ip podKey set _ Hmu1 Hset1 Hobj1 Hkind).
    simpl. rewrite lookup_insert_eq. simpl.
    rewrite bool_decide_eq_false_2 by (intros Hne; apply Hne; reflexivity). reflexivity. }
  simpl. split; [|split; [|split]].
  - rewrite Hheap, insert_insert_eq, delete_insert_eq, (delete_id _ _ Hnew).
    apply insert_id. rewrite Hobj. f_equal. destruct obj; reflexivity.
  - destruct st1 as [h1 [lm [sc sm] o] ms1]. simpl in *. subst sm. exact Hmgr.
  - rewrite Hmetrics. simpl. lia.
  - intros name. rewrite Hmetrics. simpl.
    destruct (decide (setName = name)) as [<-|Hne].
    + rewrite !lookup_insert_eq. simpl. lia.
    + rewrite !lookup_insert_ne by exact Hne. reflexivity.
Qed.

(** X8: DeleteFromSet for an address the cached hash set does not hold is a
    no-op when the pod key is not empty; with the empty pod key, which is
    what Go reads for the missing address, the call takes the delete branch:
    the heap stays and the count of entries goes down by one. *)
Theorem X8_DeleteFromSet_missing_address
    (st : State SetType) (setName ip podKey : string) (set : ptr) (obj : IPSet SetType) :
  mu (setMap (mgr st)) = false ->
  cache (setMap (mgr st)) !! setName = Some set ->
  heap st !! set = Some obj ->
  kindOfType (Type_ obj) = HashSet ->
  IpPodKey obj !! ip = None ->
  (podKey ≠ "" -> DeleteFromSet setName ip podKey st = Returned None st) ∧
  ∃ st', DeleteFromSet setName ip "" st = Returned None st' ∧
         heap st' = heap st ∧ mgr st' = mgr st ∧
         NumIPSetEntries (metrics st') = (NumIPSetEntries (metrics st) - 1)%Z.
Proof.
  intros Hmu Hset Hobj Hkind Hnone. split.
  - intros Hkey. rewrite (DeleteFromSet_cached st setName ip podKey set obj Hmu Hset Hobj Hkind).
    rewrite Hnone. simpl.
    rewrite bool_decide_eq_true_2 by (intros Heq; apply Hkey; symmetry; exact Heq).
    reflexivity.
  - rewrite (DeleteFromSet_cached st setName ip "" set obj Hmu Hset Hobj Hkind).
    rewrite Hnone. simpl.
    eexists. split; [reflexivity|]. simpl. split; [|split; [|reflexivity]].
    + rewrite (delete_id _ _ Hnone). apply insert_id. rewrite Hobj. f_equal.
      destruct obj; reflexivity.
    + destruct st as [h [lm [sc sm] o] ms]. simpl in *. subst sm. reflexivity.
Qed.

(** ** Lists, and deleting sets *)

(** X9: AddToList of a cached hash set to a cached list returns no error
    and leaves the list holding, under the set's name, the very pointer the
    hash-set cache holds; the count of entries grows by one when the name
    was not a member and stays otherwise; a second call changes nothing. *)
Theorem X9_AddToList_member (st : State SetType) (listName setName : string)
    (list set : ptr) (lobj obj : IPSet SetType) :
  listName ≠ setName ->
  mu (listMap (mgr st)) = false ->
  cache (listMap (mgr st)) !! listName = Some list ->
  heap st !! list = Some lobj ->
  kindOfType (Type_ lobj) = ListSet ->
  cache (setMap (mgr st)) !! setName = Some set ->
  heap st !! set = Some obj ->
  kindOfType (Type_ obj) = HashSet ->
  ∃ st1 lobj1,
    AddToList listName setName st = Returned None st1 ∧
    mgr st1 = mgr st ∧
    heap st1 !! list = Some lobj1 ∧
    IPSet_ lobj1 !! setName = cache (setMap (mgr st1)) !! setName ∧
    NumIPSetEntries (metrics st1)
      = (NumIPSetEntries (metrics st)
         + (if bool_decide (is_Some (IPSet_ lobj !! setName)) then 0 else 1))%Z ∧
    AddToList listName setName st1 = Returned None st1.
Proof.
  intros Hne Hmu Hlist Hlobj Hlkind Hset Hobj Hkind.
  assert (Hbody : ∀ st0 : State SetType,
    mu (listMap (mgr st0)) = false ->
    cache (listMap (mgr st0)) !! listName = Some list ->
    cache (setMap (mgr st0)) !! setName = Some set ->
    heap st0 !! set = Some obj ->
    ∀ lobj0, heap st0 !! list = Some lobj0 -> kindOfType (Type_ lobj0) = ListSet ->
    AddToList listName setName st0 =
      match IPSet_ lobj0 !! setName with
      | Some listSet =>
          if bool_decide (listSet = set) then Returned None st0
          else Returned None
                 (setMu TheListMap false
                    (store list {| Name := Name lobj0; Type_ := Type_ lobj0;
                                   IpPodKey := IpPodKey lobj0;
                                   IPSet_ := <[setName := set]> (IPSet_ lobj0) |}
                       (setMu TheListMap true st0)))
      | None =>
          Returned None
            (setMu TheListMap false
               (IncEntries setName
                  (store list {| Name := Name lobj0; Type_ := Type_ lobj0;
                                 IpPodKey := IpPodKey lobj0;
                                 IPSet_ := <[setName := set]> (IPSet_ lobj0) |}
                     (setMu TheListMap true st0))))
      end).
  { intros st0 Hmu0 Hlist0 Hset0 Hobj0 lobj0 Hlobj0 Hlkind0. unfold AddToList.
    rewrite bool_decide_eq_false_2 by exact Hne.
    rewrite with_lock_free by exact Hmu0. simpl.
    unfold getSetKind. simpl. rewrite Hset0, Hobj0. simpl. rewrite Hkind.
    rewrite (bool_decide_eq_false_2 (HashSet ≠ HashSet)) by (intros Hk; apply Hk; reflexivity).
    simpl. rewrite Hlist0, Hlobj0, Hlkind0.
    rewrite (bool_decide_eq_false_2 (ListSet ≠ ListSet)) by (intros Hk; apply Hk; reflexivity).
    destruct (IPSet_ lobj0 !! setName) as [listSet|]; [|reflexivity].
    destruct (bool_decide (listSet = set)); [|reflexivity].
    f_equal. apply unlock_lock. exact Hmu0. }
  assert (Hmgr : ∀ (h : gmap ptr (IPSet SetType)) ms,
            mgr (setMu TheListMap false (mkState h (mgr (setMu TheListMap true st)) ms))
            = mgr st).
  { intros h ms. destruct st as [h0 [[lc lm] sm o] ms0]. simpl in *. subst lm. reflexivity. }
  rewrite (Hbody st Hmu Hlist Hset Hobj lobj Hlobj Hlkind).
  assert (Hagain : ∀ st1 lobj1,
            mgr st1 = mgr st -> heap st1 !! set = Some obj ->
            heap st1 !! list = Some lobj1 -> kindOfType (Type_ lobj1) = ListSet ->
            IPSet_ lobj1 !! setName = Some set ->
            AddToList listName setName st1 = Returned None st1).
  { intros st1 lobj1 Hmgr1 Hobj1 Hlobj1 Hlkind1 Hmember.
    assert (Hmu1 : mu (listMap (mgr st1)) = false) by (rewrite Hmgr1; exact Hmu).
    assert (Hlist1 : cache (listMap (mgr st1)) !! listName = Some list)
      by (rewrite Hmgr1; exact Hlist).
    assert (Hset1 : cache (setMap (mgr st1)) !! setName = Some set)
      by (rewrite Hmgr1; exact Hset).
    rewrite (Hbody st1 Hmu1 Hlist1 Hset1 Hobj1 lobj1 Hlobj1 Hlkind1).
    rewrite Hmember. rewrite bool_decide_eq_true_2 by reflexivity. reflexivity. }
  assert (Hdistinct : list ≠ set) by (intros ->; congruence).
  destruct (IPSet_ lobj !! setName) as [listSet|] eqn:Hmember.
  - rewrite (bool_decide_eq_true_2 (is_Some (Some listSet))) by eauto.
    destruct (decide (listSet = set)) as [->|Hstale].
    + rewrite bool_decide_eq_true_2 by reflexivity.
      exists st, lobj. rewrite Hset, Hmember.
      repeat split; try assumption; try reflexivity; [lia|].
      apply (Hagain st lobj); auto.
    + rewrite bool_decide_eq_false_2 by exact Hstale.
      eexists _, _. split; [reflexivity|]. split; [apply Hmgr|].
      split; [simpl; apply lookup_insert_eq|]. simpl.
      split; [rewrite lookup_insert_eq; symmetry; exact Hset|].
      split; [lia|].
      eapply Hagain;
        [apply Hmgr | | simpl; apply lookup_insert_eq | exact Hlkind
         | simpl; apply lookup_insert_eq].
      simpl. rewrite lookup_insert_ne by exact Hdistinct. exact Hobj.
  - rewrite (bool_decide_eq_false_2 (is_Some None)) by (intros [? ?]; discriminate).
    eexists _, _. split; [reflexivity|]. split; [apply Hmgr|].
    split; [simpl; apply lookup_insert_eq|]. simpl.
    split; [rewrite lookup_insert_eq; symmetry; exact Hset|].
    split; [reflexivity|].
    eapply Hagain;
      [apply Hmgr | | simpl; apply lookup_insert_eq | exact Hlkind
       | simpl; apply lookup_insert_eq].
    simpl. rewrite lookup_insert_ne by exact Hdistinct. exact Hobj.
Qed.

(** X10: the membership operations fail fast: whenever DeleteFromSet,
    AddToList or DeleteFromList return an error, and whenever AddToSet
    returns an error for a name that is cached, the state is the one of the
    call. *)
Theorem X10_errors_leave_state (st st' : State SetType) (name other ip podKey : string)
    (err : error) :
  (DeleteFromSet name ip podKey st = Returned (Some err) st' -> st' = st) ∧
  (AddToList name other st = Returned (Some err) st' -> st' = st) ∧
  (DeleteFromList name other st = Returned (Some err) st' -> st' = st) ∧
  (is_Some (cache (setMap (mgr st)) !! name) ->
   AddToSet name ip podKey st = Returned (Some err) st' -> st' = st).
Proof.
  split; [|split; [|split]].
  - unfold DeleteFromSet, with_lock.
    destruct (mu (getMap TheSetMap st)) eqn:Hmu; [discriminate|].
    intros Hret. repeat case_match; simplify_eq; auto using unlock_lock.
  - unfold AddToList, with_lock. destruct (bool_decide (name = other)).
    { intros ?; simplify_eq. reflexivity. }
    destruct (mu (getMap TheListMap st)) eqn:Hmu; [discriminate|].
    intros Hret. repeat case_match; simplify_eq; auto using unlock_lock.
  - apply DeleteFromList_same.
  - intros [set Hset]. unfold AddToSet, with_lock. destruct (isIPv4 ip); simpl.
    2: { intros ?; simplify_eq. reflexivity. }
    destruct (mu (setMap (mgr st))) eqn:Hmu; [discriminate|].
    rewrite Hset. unfold addToSet_found.
    intros Hret. repeat case_match; simplify_eq; auto using unlock_lock.
Qed.

(** X11: DeleteSet drops the name from the hash-set cache and nothing else:
    the list cache and every allocated set, hence the members of every
    list, stay; after it DeleteFromSet, AddToList and DeleteFromList on the
    name fail with a does-not-exist error. *)
Theorem X11_DeleteSet_leaves_members (st : State SetType) (name listName ip podKey : string) :
  mu (setMap (mgr st)) = false ->
  mu (listMap (mgr st)) = false ->
  listName ≠ name ->
  ∃ st',
    DeleteSet name st = Returned tt st' ∧
    cache (setMap (mgr st')) = delete name (cache (setMap (mgr st))) ∧
    listMap (mgr st') = listMap (mgr st) ∧
    heap st' = heap st ∧
    DeleteFromSet name ip podKey st' =
      Returned (Some (Errorf DeleteIPSet false ("ipset " +:+ name +:+ " does not exist"))) st' ∧
    AddToList listName name st' =
      Returned (Some (Errorf AppendIPSet false
                        ("member ipset " +:+ name +:+ " does not exist"))) st' ∧
    DeleteFromList listName name st' =
      Returned (Some (Errorf DeleteIPSet false ("ipset " +:+ name +:+ " does not exist"))) st'.
Proof.
  intros Hmus Hmul Hne. unfold DeleteSet. rewrite with_lock_free by exact Hmus. simpl.
  eexists. split; [reflexivity|].
  set (st' := setMu TheSetMap false _).
  assert (Hcache : cache (setMap (mgr st')) = delete name (cache (setMap (mgr st))))
    by reflexivity.
  assert (Hgone : cache (setMap (mgr st')) !! name = None)
    by (rewrite Hcache; apply lookup_delete_eq).
  assert (Hmul' : mu (listMap (mgr st')) = false) by exact Hmul.
  assert (Hmus' : mu (setMap (mgr st')) = false) by reflexivity.
  split; [exact Hcache|]. split; [reflexivity|]. split; [reflexivity|].
  clearbody st'. split; [|split].
  - unfold DeleteFromSet. rewrite with_lock_free by exact Hmus'. simpl.
    rewrite Hgone. f_equal. apply unlock_lock. exact Hmus'.
  - unfold AddToList. rewrite bool_decide_eq_false_2 by exact Hne.
    rewrite with_lock_free by exact Hmul'. simpl.
    rewrite Hgone. f_equal. apply unlock_lock. exact Hmul'.
  - unfold DeleteFromList. rewrite with_lock_free by exact Hmul'. simpl.
    rewrite Hgone. f_equal. apply unlock_lock. exact Hmul'.
Qed.

(** X12: Clear with both mutexes free empties both caches and returns with
    both mutexes free; the allocated sets and the metrics stay as they were
    (the counters are not reset); with either mutex held it never
    returns. *)
Theorem X12_Clear (st : State SetType) :
  (unlocked st ->
   ∃ st', Clear st = Returned tt st' ∧
          cache (listMap (mgr st')) = ∅ ∧ cache (setMap (mgr st')) = ∅ ∧
          unlocked st' ∧ heap st' = heap st ∧ metrics st' = metrics st) ∧
  (¬ unlocked st -> Clear st = Blocked).
Proof.
  split.
  - intros [Hmul Hmus]. unfold Clear.
    rewrite with_lock_free by exact Hmul. rewrite with_lock_free by exact Hmus.
    simpl. eexists. split; [reflexivity|]. repeat split.
  - intros Hheld. unfold Clear.
    destruct (mu (listMap (mgr st))) eqn:Hmul.
    { apply with_lock_held. exact Hmul. }
    destruct (mu (setMap (mgr st))) eqn:Hmus.
    + rewrite with_lock_free by exact Hmul.
      rewrite with_lock_held; [reflexivity | exact Hmus].
    + exfalso. apply Hheld. split; assumption.
Qed.

End properties.

Section witnesses.
#[local] Existing Instance testEnv.

Lemma C1_witness :
  ∃ st1 st2,
    AddToSet "test-set" "10.0.0.1" "pod-a" testState = Returned None st1 ∧
    owner st1 "test-set" "10.0.0.1" = Some "pod-a" ∧
    AddToSet "test-set" "10.0.0.1" "pod-b" st1 = Returned None st2 ∧
    owner st2 "test-set" "10.0.0.1" = Some "pod-b" ∧
    DeleteFromSet "test-set" "10.0.0.1" "pod-a" st2 = Returned None st2.
Proof.
  apply (C1_overwrite_then_stale_delete testState "test-set" "10.0.0.1" "pod-a" "pod-b"
           1%positive testSet); [vm_compute; reflexivity..|discriminate].
Defined.

Lemma C5_witness :
  ∃ st1,
    CreateIPSet 1%positive allocatedState = Returned None st1 ∧
    CreateIPSet 1%positive st1 = Returned None st1 ∧
    (∀ w, getSetCache allocatedState 1%positive = Some (inl w) ->
          is_Some (cache (getMap w allocatedState) !! "test-set") -> st1 = allocatedState).
Proof.
  apply (C5_CreateIPSet_idempotent allocatedState 1%positive allocatedSet);
    [vm_compute; reflexivity | discriminate | vm_compute; reflexivity..].
Defined.

Lemma C6_witness :
  AddToSet "test-set" "10.0.0.0" "test-pod-key" initial = Blocked ∨
  ∃ err st', AddToSet "test-set" "10.0.0.0" "test-pod-key" initial = Returned (Some err) st'.
Proof.
  apply (C6_AddToSet_absent_set initial "test-set" "10.0.0.0" "test-pod-key").
  vm_compute; reflexivity.
Defined.

(** On a new manager the call of TestAddToSet without the CreateIPSet before
    it fails with "unknown Set kind": no cache changes, and the set it
    allocated stays behind, out of reach. *)
Example AddToSet_new_manager :
  AddToSet "test-set" "10.0.0.0" "test-pod-key" initial
    = Returned (Some (Errorf errors.CreateIPSet false "unknown Set kind"))
        (NewIPSet "test-set" Unknown initial).2.
Proof. vm_compute. reflexivity. Qed.

(** The tests of the package, on this manager. *)
Example TestAddToSet :
  returned_ok
    (run [CreateNewIPSet "test-set" NameSpace;
          AddToSet "test-set" "10.0.0.0" "test-pod-key"] initial)
    (fun st => owner st "test-set" "10.0.0.0" = Some "test-pod-key").
Proof. vm_compute. reflexivity. Qed.

Example TestRemoveFromSet :
  returned_ok
    (run [CreateNewIPSet "test-set" NameSpace;
          AddToSet "test-set" "10.0.0.0" "test-pod-key";
          DeleteFromSet "test-set" "10.0.0.0" "test-pod-key"] initial)
    (fun st => owner st "test-set" "10.0.0.0" = None).
Proof. vm_compute. reflexivity. Qed.

Example TestAddToListMissing :
  returned_error (AddToList "test-pod-key" "newtest" initial).
Proof. vm_compute. exact I. Qed.

Example TestAddToList :
  returned_ok
    (run [CreateNewIPSet "test-set" NameSpace;
          CreateNewIPSet "test-list" KeyLabelOfNameSpace;
          AddToList "test-list" "test-set"] initial)
    (fun st => ∃ list lobj, cache (listMap (mgr st)) !! "test-list" = Some list ∧
                            heap st !! list = Some lobj ∧
                            IPSet_ lobj !! "test-set" = cache (setMap (mgr st)) !! "test-set").
Proof. vm_compute. eexists _, _. repeat split; reflexivity. Qed.

Example TestRemoveFromList :
  returned_ok
    (run [CreateNewIPSet "test-set" NameSpace;
          CreateNewIPSet "test-list" KeyLabelOfNameSpace;
          AddToList "test-list" "test-set";
          DeleteFromList "test-list" "test-set"] initial)
    (fun st => ∃ list lobj, cache (listMap (mgr st)) !! "test-list" = Some list ∧
                            heap st !! list = Some lobj ∧
                            IPSet_ lobj !! "test-set" = cache (setMap (mgr st)) !! "test-set").
Proof. vm_compute. eexists _, _. repeat split; reflexivity. Qed.

Example TestRemoveFromListMissing :
  returned_error
    (run [CreateNewIPSet "test-list" KeyLabelOfNameSpace;
          DeleteFromList "test-list" "test-set"] initial).
Proof. vm_compute. exact I. Qed.

Lemma C7_witness :
  DeleteFromSet "test-set" "10.0.0.0" "test-pod-key" initial =
    Returned (Some (Errorf DeleteIPSet false "ipset test-set does not exist")) initial.
Proof.
  apply (C7_DeleteFromSet_missing initial "test-set" "10.0.0.0" "test-pod-key");
    vm_compute; reflexivity.
Defined.

Lemma C9_witness :
  IPSet_ testList !! "test-set" = Some 1%positive ∧
  DeleteFromList "test-list" "test-set" testState = Returned None testState.
Proof.
  split; [vm_compute; reflexivity|].
  apply (proj2 (C9_DeleteFromList_never_mutates testState "test-list" "test-set")).
  - vm_compute; reflexivity.
  - exists 2%positive, testList. repeat split; vm_compute; reflexivity.
  - exists 1%positive, testSet. repeat split; vm_compute; reflexivity.
Defined.

End witnesses.

(** C4: on every sequence of names of cached hash sets,
    GetIPsFromSelectorIPSets returns exactly the addresses held by every
    named set (none for the empty sequence), and returns the same set on
    every permutation of the sequence; after the calls of
    TestGetIPsFromSelectorIPSets the query on setNs1, setpod1, setpod2,
    setpod3 returns exactly 10.0.0.1 and 10.0.0.2. *)
Theorem C4_GetIPsFromSelectorIPSets :
  (∀ (SetType : Type) (E : Env SetType) (st : State SetType) (setNames : list string),
     Forall (cached TheSetMap HashSet st) setNames ->
     ∃ ips : gset string,
       GetIPsFromSelectorIPSets st setNames = inr ips ∧
       (∀ ip, ip ∈ ips ↔
              setNames ≠ [] ∧ ∀ name, name ∈ setNames -> is_Some (owner st name ip)) ∧
       (∀ setNames', setNames ≡ₚ setNames' ->
                     GetIPsFromSelectorIPSets st setNames' = inr ips)) ∧
  returned_ok selectorScenario (fun st =>
    GetIPsFromSelectorIPSets (H := testEnv) st ["setNs1"; "setpod1"; "setpod2"; "setpod3"]
      = inr {[ "10.0.0.1"; "10.0.0.2" ]}).
Proof.
  split.
  - intros T E st setNames Hall.
    destruct (GetIPsFromSelectorIPSets_intersection st setNames Hall) as (ips & Hget & Hips).
    exists ips. split; [exact Hget|]. split; [exact Hips|].
    intros setNames' Hperm.
    exact (GetIPsFromSelectorIPSets_permutation st setNames setNames' ips Hall Hperm Hget).
  - vm_compute. reflexivity.
Qed.

Lemma C4_witness :
  selectorScenario = Returned None selectorState ∧
  ∃ ips : gset string,
    GetIPsFromSelectorIPSets (H := testEnv) selectorState
      ["setNs1"; "setpod1"; "setpod2"; "setpod3"] = inr ips ∧
    (∀ ip, ip ∈ ips ↔
           ["setNs1"; "setpod1"; "setpod2"; "setpod3"] ≠ [] ∧
           ∀ name, name ∈ ["setNs1"; "setpod1"; "setpod2"; "setpod3"] ->
                   is_Some (owner selectorState name ip)) ∧
    (∀ setNames', ["setNs1"; "setpod1"; "setpod2"; "setpod3"] ≡ₚ setNames' ->
                  GetIPsFromSelectorIPSets (H := testEnv) selectorState setNames' = inr ips).
Proof.
  split; [vm_compute; reflexivity|].
  apply (proj1 C4_GetIPsFromSelectorIPSets TestSetType testEnv selectorState
           ["setNs1"; "setpod1"; "setpod2"; "setpod3"]).
  repeat constructor.
  - exists 1%positive. eexists. repeat split; vm_compute; reflexivity.
  - exists 2%positive. eexists. repeat split; vm_compute; reflexivity.
  - exists 3%positive. eexists. repeat split; vm_compute; reflexivity.
  - exists 4%positive. eexists. repeat split; vm_compute; reflexivity.
Defined.

Section more_witnesses.
#[local] Existing Instance testEnv.

(** The state of the examples is one a new manager reaches. *)
Lemma testState_reachable : reachable testState.
Proof.
  apply (run_reachable
           [CallCreateIPSet "test-set" NameSpace;
            CallCreateIPSet "test-list" KeyLabelOfNameSpace;
            CallAddToSet "test-set" "10.0.0.0" "test-pod-key";
            CallAddToList "test-list" "test-set"] initial None testState).
  - apply reachable_initial.
  - vm_compute; reflexivity.
Qed.

Lemma X1_witness :
  consistent (setCache TheSetMap (delete "test-set" (cache (setMap (mgr testState)))) testState).
Proof.
  apply (X1_calls_keep_caches_consistent (CallDeleteSet "test-set") testState None).
  - apply reachable_consistent, testState_reachable.
  - vm_compute; reflexivity.
Defined.

Lemma X2_witness :
  sameLocks testState
    (setCache TheSetMap (delete "test-set" (cache (setMap (mgr testState)))) testState).
Proof.
  apply (X2_calls_release_mutexes (CallDeleteSet "test-set") testState None).
  vm_compute; reflexivity.
Defined.


Lemma X4_witness :
  consistent testState ∧ unlocked testState ∧
  perform (CallAddToList "test-list" "test-set") testState ≠ Panicked.
Proof.
  apply (X4_new_manager_never_panics testState (CallAddToList "test-list" "test-set")).
  exact testState_reachable.
Defined.

Lemma X5_witness :
  ∃ st1, AddToSet "test-set" "10.0.0.1" "pod-a" testState = Returned None st1 ∧
         AddToSet "test-set" "10.0.0.1" "pod-a" st1 = Returned None st1.
Proof.
  apply (X5_AddToSet_idempotent testState "test-set" "10.0.0.1" "pod-a" 1%positive testSet);
    vm_compute; reflexivity.
Defined.

Lemma X6_witness :
  ∃ st', AddToSet "test-set" "10.0.0.1" "pod-a" testState = Returned None st' ∧
         mgr st' = mgr testState ∧
         ∀ name ip', ip' ≠ "10.0.0.1" -> owner st' name ip' = owner testState name ip'.
Proof.
  apply (X6_AddToSet_frame testState "test-set" "10.0.0.1" "pod-a" 1%positive testSet);
    vm_compute; reflexivity.
Defined.

Lemma X7_witness :
  ∃ st1 st2,
    AddToSet "test-set" "10.0.0.1" "pod-a" testState = Returned None st1 ∧
    owner st1 "test-set" "10.0.0.1" = Some "pod-a" ∧
    DeleteFromSet "test-set" "10.0.0.1" "pod-a" st1 = Returned None st2 ∧
    heap st2 = heap testState ∧ mgr st2 = mgr testState ∧
    NumIPSetEntries (metrics st2) = NumIPSetEntries (metrics testState) ∧
    ∀ name, default 0%Z (IPSetInventory (metrics st2) !! name)
            = default 0%Z (IPSetInventory (metrics testState) !! name).
Proof.
  apply (X7_AddToSet_DeleteFromSet_round_trip testState "test-set" "10.0.0.1" "pod-a"
           1%positive testSet); vm_compute; reflexivity.
Defined.

Lemma X8_witness :
  ("pod-a" ≠ "" ->
   DeleteFromSet "test-set" "10.0.0.1" "pod-a" testState = Returned None testState) ∧
  ∃ st', DeleteFromSet "test-set" "10.0.0.1" "" testState = Returned None st' ∧
         heap st' = heap testState ∧ mgr st' = mgr testState ∧
         NumIPSetEntries (metrics st') = (NumIPSetEntries (metrics testState) - 1)%Z.
Proof.
  apply (X8_DeleteFromSet_missing_address testState "test-set" "10.0.0.1" "pod-a"
           1%positive testSet); vm_compute; reflexivity.
Defined.

Lemma X9_witness :
  ∃ st1 lobj1,
    AddToList "test-list" "test-set" testState = Returned None st1 ∧
    mgr st1 = mgr testState ∧
    heap st1 !! 2%positive = Some lobj1 ∧
    IPSet_ lobj1 !! "test-set" = cache (setMap (mgr st1)) !! "test-set" ∧
    NumIPSetEntries (metrics st1)
      = (NumIPSetEntries (metrics testState)
         + (if bool_decide (is_Some (IPSet_ testList !! "test-set")) then 0 else 1))%Z ∧
    AddToList "test-list" "test-set" st1 = Returned None st1.
Proof.
  apply (X9_AddToList_member testState "test-list" "test-set" 2%positive 1%positive
           testList testSet); first [discriminate | vm_compute; reflexivity].
Defined.

Lemma X10_witness :
  AddToList "test-list" "missing" testState
    = Returned (Some (Errorf AppendIPSet false "member ipset missing does not exist")) testState ∧
  testState = testState.
Proof.
  assert (Hcall : AddToList "test-list" "missing" testState
            = Returned (Some (Errorf AppendIPSet false "member ipset missing does not exist"))
                testState) by (vm_compute; reflexivity).
  split; [exact Hcall|].
  exact (proj1 (proj2 (X10_errors_leave_state testState testState "test-list" "missing"
                         "10.0.0.1" "pod-a"
                         (Errorf AppendIPSet false "member ipset missing does not exist")))
           Hcall).
Defined.

Lemma X11_witness :
  ∃ st',
    DeleteSet "test-set" testState = Returned tt st' ∧
    cache (setMap (mgr st')) = delete "test-set" (cache (setMap (mgr testState))) ∧
    listMap (mgr st') = listMap (mgr testState) ∧
    heap st' = heap testState ∧
    DeleteFromSet "test-set" "10.0.0.0" "test-pod-key" st' =
      Returned (Some (Errorf DeleteIPSet false ("ipset " +:+ "test-set" +:+ " does not exist")))
        st' ∧
    AddToList "test-list" "test-set" st' =
      Returned (Some (Errorf AppendIPSet false
                        ("member ipset " +:+ "test-set" +:+ " does not exist"))) st' ∧
    DeleteFromList "test-list" "test-set" st' =
      Returned (Some (Errorf DeleteIPSet false ("ipset " +:+ "test-set" +:+ " does not exist")))
        st'.
Proof.
  apply (X11_DeleteSet_leaves_members testState "test-set" "test-list" "10.0.0.0" "test-pod-key");
    first [discriminate | reflexivity].
Defined.

Lemma X12_witness :
  ∃ st', Clear testState = Returned tt st' ∧
         cache (listMap (mgr st')) = ∅ ∧ cache (setMap (mgr st')) = ∅ ∧
         unlocked st' ∧ heap st' = heap testState ∧ metrics st' = metrics testState.
Proof.
  apply (proj1 (X12_Clear testState)). split; reflexivity.
Defined.

End more_witnesses.

End ipsets_spec.

(** ** The policy manager *)

Module policies_spec.

Import policies.

Section properties.
Context {IPSet Programmed : Type} `{Backend IPSet Programmed}.

(** C2: when the backend call inside AddPolicy (RemovePolicy) returns an
    error, that very error is returned and the policy cache is as before;
    a call after which the cache differs is one whose backend call
    reported success. *)
Theorem C2_backend_error_leaves_cache
    (policy : NPMNetworkPolicy IPSet) (name : string) (pMgr : PolicyManager IPSet Programmed) :
  (∀ err w, addPolicy policy (programmed pMgr) = (Some err, w) ->
     (AddPolicy policy pMgr).1 = Some err ∧
     policyMap (AddPolicy policy pMgr).2 = policyMap pMgr) ∧
  (∀ err w, removePolicy name (programmed pMgr) = (Some err, w) ->
     (RemovePolicy name pMgr).1 = Some err ∧
     policyMap (RemovePolicy name pMgr).2 = policyMap pMgr) ∧
  (policyMap (AddPolicy policy pMgr).2 ≠ policyMap pMgr ->
     (addPolicy policy (programmed pMgr)).1 = None ∧ (AddPolicy policy pMgr).1 = None) ∧
  (policyMap (RemovePolicy name pMgr).2 ≠ policyMap pMgr ->
     (removePolicy name (programmed pMgr)).1 = None ∧ (RemovePolicy name pMgr).1 = None).
Proof.
  unfold AddPolicy, RemovePolicy. split; [|split; [|split]].
  - intros err w Hfail. rewrite Hfail. split; reflexivity.
  - intros err w Hfail. rewrite Hfail. split; reflexivity.
  - destruct (addPolicy policy (programmed pMgr)) as [[err|] w]; simpl; intros Hdiff.
    + contradiction.
    + split; reflexivity.
  - destruct (removePolicy name (programmed pMgr)) as [[err|] w]; simpl; intros Hdiff.
    + contradiction.
    + split; reflexivity.
Qed.

(** X13: a policy AddPolicy accepted is the one GetPolicy returns under its
    name, no other name changes, and a RemovePolicy that succeeds after it
    leaves the name absent; when the name was absent before, the cache is
    back to what it was. *)
Theorem X13_policy_cache_round_trip
    (policy : NPMNetworkPolicy IPSet) (pMgr pMgr1 : PolicyManager IPSet Programmed) :
  AddPolicy policy pMgr = (None, pMgr1) ->
  GetPolicy pMgr1 (Name policy) = Some policy ∧
  PolicyExists pMgr1 (Name policy) = true ∧
  (∀ other, other ≠ Name policy -> GetPolicy pMgr1 other = GetPolicy pMgr other) ∧
  (∀ pMgr2, RemovePolicy (Name policy) pMgr1 = (None, pMgr2) ->
     PolicyExists pMgr2 (Name policy) = false ∧
     (PolicyExists pMgr (Name policy) = false -> policyMap pMgr2 = policyMap pMgr)).
Proof.
  unfold AddPolicy. destruct (addPolicy policy (programmed pMgr)) as [[err|] w];
    [discriminate|].
  intros ?; simplify_eq. unfold GetPolicy, PolicyExists. simpl.
  split; [apply lookup_insert_eq|]. split.
  { apply bool_decide_eq_true_2. rewrite lookup_insert_eq. eauto. }
  split; [intros other Hother; apply lookup_insert_ne; congruence|].
  intros pMgr2. unfold RemovePolicy. simpl.
  destruct (removePolicy (Name policy) w) as [[err|] w']; [discriminate|].
  intros ?; simplify_eq. simpl. split.
  - apply bool_decide_eq_false_2. rewrite lookup_delete_eq. intros [? ?]. discriminate.
  - intros Habsent%bool_decide_eq_false_1.
    rewrite delete_insert_eq. destruct pMgr as [[c] w0]. simpl in *. f_equal.
    apply delete_id. destruct (c !! Name policy) eqn:Hc; [|reflexivity].
    exfalso. apply Habsent. eauto.
Qed.

(** X14: UpdatePolicy returns what the backend reports and never touches
    the policy cache: after an update that succeeded GetPolicy still returns
    the policy cached before, for every name. *)
Theorem X14_UpdatePolicy_keeps_cache
    (policy : NPMNetworkPolicy IPSet) (pMgr : PolicyManager IPSet Programmed) :
  (UpdatePolicy policy pMgr).1 = (updatePolicy policy (programmed pMgr)).1 ∧
  programmed (UpdatePolicy policy pMgr).2 = (updatePolicy policy (programmed pMgr)).2 ∧
  ∀ name, GetPolicy (UpdatePolicy policy pMgr).2 name = GetPolicy pMgr name.
Proof.
  unfold UpdatePolicy, GetPolicy.
  destruct (updatePolicy policy (programmed pMgr)) as [[err|] w]; repeat split.
Qed.

End properties.

Section witnesses.
#[local] Existing Instance dataplane.testBackend.

Lemma C2_witness :
  ((policies.AddPolicy dataplane.unnamedPolicy dataplane.emptyManager).1
     = Some (External "policy has no name") ∧
   policies.policyMap (policies.AddPolicy dataplane.unnamedPolicy dataplane.emptyManager).2
     = policies.policyMap dataplane.emptyManager) ∧
  ((policies.RemovePolicy "default/allow-app" dataplane.staleManager).1
     = Some (External "policy is not programmed") ∧
   policies.policyMap (policies.RemovePolicy "default/allow-app" dataplane.staleManager).2
     = policies.policyMap dataplane.staleManager).
Proof.
  split.
  - apply (proj1 (C2_backend_error_leaves_cache
                    dataplane.unnamedPolicy "" dataplane.emptyManager)
             (External "policy has no name") (@nil string)).
    vm_compute; reflexivity.
  - apply (proj1 (proj2 (C2_backend_error_leaves_cache
                           dataplane.unnamedPolicy "default/allow-app" dataplane.staleManager))
             (External "policy is not programmed") (@nil string)).
    vm_compute; reflexivity.
Defined.

Lemma X13_witness :
  GetPolicy (AddPolicy dataplane.testPolicy dataplane.emptyManager).2 "default/allow-app"
    = Some dataplane.testPolicy ∧
  PolicyExists (AddPolicy dataplane.testPolicy dataplane.emptyManager).2 "default/allow-app"
    = true ∧
  (∀ other, other ≠ "default/allow-app" ->
     GetPolicy (AddPolicy dataplane.testPolicy dataplane.emptyManager).2 other
       = GetPolicy dataplane.emptyManager other) ∧
  (∀ pMgr2,
     RemovePolicy "default/allow-app"
       (AddPolicy dataplane.testPolicy dataplane.emptyManager).2 = (None, pMgr2) ->
     PolicyExists pMgr2 "default/allow-app" = false ∧
     (PolicyExists dataplane.emptyManager "default/allow-app" = false ->
      policyMap pMgr2 = policyMap dataplane.emptyManager)).
Proof.
  apply (X13_policy_cache_round_trip dataplane.testPolicy dataplane.emptyManager
           (AddPolicy dataplane.testPolicy dataplane.emptyManager).2).
  vm_compute; reflexivity.
Defined.

End witnesses.

End policies_spec.

(** ** The DataPlane orchestrator *)

Module dataplane_spec.

Import dataplane.

Section properties.
Context {SetType IPSetManager Programmed : Type}.
Context `{IPSetManagerAPI SetType IPSetManager} `{policies.Backend (IPSet SetType) Programmed}.
#[local] Abbreviation DataPlane := (DataPlane SetType IPSetManager Programmed).

Lemma addIPSetReferences_policyMgr sets netpolName referenceType (dp : DataPlane) :
  policyMgr (addIPSetReferences sets netpolName referenceType dp).2 = policyMgr dp.
Proof.
  unfold addIPSetReferences.
  destruct (createAndReference _ _ _ _) as [[err|] im]; [reflexivity|].
  destruct (addMembers _ _) as [err im']. reflexivity.
Qed.

(** A policy that AddPolicy accepted is in the policy cache. *)
Lemma AddPolicy_registers (policy : policies.NPMNetworkPolicy (IPSet SetType))
    (dp dp' : DataPlane) :
  AddPolicy policy dp = (None, dp') ->
  policies.PolicyExists (policyMgr dp') (policies.Name policy) = true.
Proof.
  unfold AddPolicy.
  destruct (policies.PolicyExists (policyMgr dp) (policies.Name policy)) eqn:Hexists.
  - unfold UpdatePolicy, policies.UpdatePolicy.
    destruct (policies.updatePolicy _ _) as [[err|] w]; [discriminate|].
    intros [= <-]. exact Hexists.
  - pose proof (addIPSetReferences_policyMgr (policies.PodSelectorIPSets policy)
                  (policies.Name policy) SelectorType dp) as Hsel.
    destruct (addIPSetReferences (policies.PodSelectorIPSets policy) _ _ dp)
      as [[err|] dp1]; [discriminate|].
    pose proof (addIPSetReferences_policyMgr (policies.RuleIPSets policy)
                  (policies.Name policy) NetPolType dp1) as Hrule.
    destruct (addIPSetReferences (policies.RuleIPSets policy) _ _ dp1)
      as [[err|] dp2]; [discriminate|].
    simpl. unfold policies.AddPolicy. simpl.
    destruct (policies.addPolicy _ _) as [[err|] w]; [discriminate|].
    intros [= <-]. unfold policies.PolicyExists. simpl.
    apply bool_decide_eq_true_2. rewrite lookup_insert_eq. eexists. reflexivity.
Qed.

(** C3: a state a successful AddPolicy left has the policy's name in the
    policy cache; and on every state that has the name of [policy] in the
    policy cache, AddPolicy is UpdatePolicy, which hands the policy to the
    policy manager's UpdatePolicy, and leaves the IPSet manager, hence the
    references of every set, and the policy cache as they were. *)
Theorem C3_AddPolicy_existing_is_update
    (policy : policies.NPMNetworkPolicy (IPSet SetType)) (dp : DataPlane) :
  (∀ first dp0, AddPolicy first dp0 = (None, dp) ->
                policies.Name first = policies.Name policy ->
                policies.PolicyExists (policyMgr dp) (policies.Name policy) = true) ∧
  (policies.PolicyExists (policyMgr dp) (policies.Name policy) = true ->
   AddPolicy policy dp = UpdatePolicy policy dp ∧
   policyMgr (AddPolicy policy dp).2 = (policies.UpdatePolicy policy (policyMgr dp)).2 ∧
   ipsetMgr (AddPolicy policy dp).2 = ipsetMgr dp ∧
   policies.policyMap (policyMgr (AddPolicy policy dp).2) = policies.policyMap (policyMgr dp)).
Proof.
  split.
  - intros first dp0 Hadd <-. exact (AddPolicy_registers first dp0 dp Hadd).
  - intros Hexists. unfold AddPolicy. rewrite Hexists.
    unfold UpdatePolicy, policies.UpdatePolicy.
    destruct (policies.updatePolicy policy _) as [[err|] w]; repeat split.
Qed.

(** C10: RemovePolicy of a name that is not in the policy cache returns no
    error and the DataPlane it was called on: the policy cache, the IPSet
    manager with both set caches and every reference, and the programmed
    state are as they were. *)
Theorem C10_RemovePolicy_absent (policyName : string) (dp : DataPlane) :
  policies.cache (policies.policyMap (policyMgr dp)) !! policyName = None ->
  RemovePolicy policyName dp = (None, dp).
Proof.
  intros Habsent. unfold RemovePolicy, policies.GetPolicy. rewrite Habsent. reflexivity.
Qed.

Lemma deleteIPSetReferences_policyMgr sets netpolName referenceType (dp : DataPlane) :
  policyMgr (deleteIPSetReferences sets netpolName referenceType dp).2 = policyMgr dp.
Proof.
  unfold deleteIPSetReferences.
  destruct (dereference _ _ _ _) as [[err|] im]; [reflexivity|].
  destruct (removeMembersAndDelete _ _) as [err im']. reflexivity.
Qed.


(** X16: an AddPolicy that succeeds for a name that was not cached caches
    the policy under its name with its selector and rule sets, and with
    PodEndpoints reset to nil whatever the caller had put there; the other
    names of the policy cache stay. *)
Theorem X16_AddPolicy_new
    (policy : policies.NPMNetworkPolicy (IPSet SetType)) (dp dp' : DataPlane) :
  policies.PolicyExists (policyMgr dp) (policies.Name policy) = false ->
  AddPolicy policy dp = (None, dp') ->
  policies.GetPolicy (policyMgr dp') (policies.Name policy)
    = Some {| policies.Name := policies.Name policy;
              policies.PodSelectorIPSets := policies.PodSelectorIPSets policy;
              policies.RuleIPSets := policies.RuleIPSets policy;
              policies.PodEndpoints := None |} ∧
  ∀ other, other ≠ policies.Name policy ->
           policies.GetPolicy (policyMgr dp') other = policies.GetPolicy (policyMgr dp) other.
Proof.
  intros Hnew. unfold AddPolicy. rewrite Hnew.
  pose proof (addIPSetReferences_policyMgr (policies.PodSelectorIPSets policy)
                (policies.Name policy) SelectorType dp) as Hsel.
  destruct (addIPSetReferences (policies.PodSelectorIPSets policy) _ _ dp)
    as [[cause|] dp1]; [discriminate|]. simpl in Hsel.
  pose proof (addIPSetReferences_policyMgr (policies.RuleIPSets policy)
                (policies.Name policy) NetPolType dp1) as Hrule.
  destruct (addIPSetReferences (policies.RuleIPSets policy) _ _ dp1)
    as [[cause|] dp2]; [discriminate|]. simpl in Hrule.
  simpl. unfold policies.AddPolicy. simpl.
  destruct (policies.addPolicy _ _) as [[cause|] w]; [discriminate|].
  intros ?; simplify_eq. unfold policies.GetPolicy. simpl. rewrite Hrule, Hsel. split.
  - apply lookup_insert_eq.
  - intros other Hother. apply lookup_insert_ne. congruence.
Qed.

(** X17: RemovePolicy of a cached policy.  When the backend refuses the
    removal, the error comes back wrapped and neither the policy cache nor
    the IPSet manager changes.  When the backend accepts it, the policy is
    evicted first: whatever RemovePolicy then returns, also an error from
    releasing references, the cache is the old one without the policy. *)
Theorem X17_RemovePolicy_cached (policyName : string) (dp : DataPlane)
    (policy : policies.NPMNetworkPolicy (IPSet SetType)) :
  policies.GetPolicy (policyMgr dp) policyName = Some policy ->
  (∀ cause w, policies.removePolicy (policies.Name policy)
                (policies.programmed (policyMgr dp)) = (Some cause, w) ->
     (RemovePolicy policyName dp).1
       = Some (Wrap "[DataPlane] error while removing policy" cause) ∧
     policies.policyMap (policyMgr (RemovePolicy policyName dp).2)
       = policies.policyMap (policyMgr dp) ∧
     ipsetMgr (RemovePolicy policyName dp).2 = ipsetMgr dp) ∧
  (∀ w, policies.removePolicy (policies.Name policy)
          (policies.programmed (policyMgr dp)) = (None, w) ->
     policies.cache (policies.policyMap (policyMgr (RemovePolicy policyName dp).2))
       = delete (policies.Name policy) (policies.cache (policies.policyMap (policyMgr dp)))).
Proof.
  intros Hcached. unfold RemovePolicy. rewrite Hcached. unfold policies.RemovePolicy. split.
  - intros cause w ->. repeat split.
  - intros w ->.
    set (dp0 := setPolicyMgr _ dp).
    pose proof (deleteIPSetReferences_policyMgr (policies.RuleIPSets policy)
                  (policies.Name policy) NetPolType dp0) as Hrule.
    destruct (deleteIPSetReferences (policies.RuleIPSets policy) _ _ dp0)
      as [[cause|] dp1]; simpl in Hrule; [simpl; rewrite Hrule; reflexivity|].
    pose proof (deleteIPSetReferences_policyMgr (policies.PodSelectorIPSets policy)
                  (policies.Name policy) SelectorType dp1) as Hsel.
    destruct (deleteIPSetReferences (policies.PodSelectorIPSets policy) _ _ dp1)
      as [[cause|] dp2]; simpl in Hsel; simpl; rewrite Hsel, Hrule; reflexivity.
Qed.

(** X24: addIPSetReferences is not transactional.  When the sets before
    [set] were created and referenced and AddReference fails for [set], the
    call returns that error with the references of the earlier sets and the
    creation of [set] in place; the sets after it are neither created nor
    referenced, no list gets its members, and nothing but the IPSet manager
    changes. *)
Theorem X24_addIPSetReferences_stops_at_failure
    (before after : list (IPSet SetType)) (set : IPSet SetType) (netpolName : string)
    (referenceType : ReferenceType) (dp : DataPlane) (im1 im2 : IPSetManager) (err : error) :
  createAndReference before netpolName referenceType (ipsetMgr dp) = (None, im1) ->
  AddReference (Name set) netpolName referenceType (CreateIPSet (Name set) (Type_ set) im1)
    = (Some err, im2) ->
  addIPSetReferences (before ++ set :: after) netpolName referenceType dp
    = (Some err, setIpsetMgr im2 dp).
Proof.
  intros Hbefore Hfail. unfold addIPSetReferences.
  assert (Hloop : ∀ im, createAndReference before netpolName referenceType im = (None, im1) ->
            createAndReference (before ++ set :: after) netpolName referenceType im
            = (Some err, im2)).
  { clear Hbefore. induction before as [|first rest IH]; intros im; simpl.
    - intros ?; simplify_eq. rewrite Hfail. reflexivity.
    - destruct (AddReference (Name first) netpolName referenceType
                  (CreateIPSet (Name first) (Type_ first) im)) as [[e|] im'];
        [discriminate|]. apply IH. }
  rewrite (Hloop (ipsetMgr dp) Hbefore). reflexivity.
Qed.

End properties.

Section witnesses.
#[local] Existing Instance trackingManager.
#[local] Existing Instance testBackend.

Lemma C3_witness :
  (AddPolicy testPolicy (NewDataPlane "testnode")).1 = None ∧
  AddPolicy testPolicy afterFirstAdd = UpdatePolicy testPolicy afterFirstAdd ∧
  policyMgr (AddPolicy testPolicy afterFirstAdd).2
    = (policies.UpdatePolicy testPolicy (policyMgr afterFirstAdd)).2 ∧
  ipsetMgr (AddPolicy testPolicy afterFirstAdd).2 = ipsetMgr afterFirstAdd ∧
  policies.policyMap (policyMgr (AddPolicy testPolicy afterFirstAdd).2)
    = policies.policyMap (policyMgr afterFirstAdd).
Proof.
  split; [vm_compute; reflexivity|].
  apply (proj2 (C3_AddPolicy_existing_is_update testPolicy afterFirstAdd)).
  vm_compute; reflexivity.
Defined.

Lemma C10_witness :
  RemovePolicy "default/allow-app" (NewDataPlane "testnode") = (None, NewDataPlane "testnode").
Proof.
  apply (C10_RemovePolicy_absent "default/allow-app" (NewDataPlane "testnode")).
  vm_compute; reflexivity.
Defined.


Lemma X16_witness :
  policies.GetPolicy (policyMgr afterFirstAdd) "default/allow-app" = Some testPolicy ∧
  ∀ other, other ≠ "default/allow-app" ->
           policies.GetPolicy (policyMgr afterFirstAdd) other
             = policies.GetPolicy (policyMgr (NewDataPlane "testnode")) other.
Proof.
  apply (X16_AddPolicy_new testPolicy (NewDataPlane "testnode") afterFirstAdd);
    vm_compute; reflexivity.
Defined.

Lemma X17_witness :
  policies.cache
    (policies.policyMap (policyMgr (RemovePolicy "default/allow-app" afterFirstAdd).2))
    = delete "default/allow-app" (policies.cache (policies.policyMap (policyMgr afterFirstAdd))).
Proof.
  apply (proj2 (X17_RemovePolicy_cached "default/allow-app" afterFirstAdd testPolicy
                  ltac:(vm_compute; reflexivity)) []).
  vm_compute; reflexivity.
Defined.

End witnesses.

Section strict_witnesses.
#[local] Existing Instance strictManager.
#[local] Existing Instance testBackend.

Lemma X24_witness :
  addIPSetReferences ([nsDefault] ++ unknownSet :: [podApp]) "default/allow-app" SelectorType
    (NewDataPlane "testnode")
  = (Some (notCached "mystery"),
     setIpsetMgr
       (createAndReference [nsDefault] "default/allow-app" SelectorType
          (ipsetMgr (NewDataPlane "testnode"))).2
       (NewDataPlane "testnode")).
Proof.
  apply (X24_addIPSetReferences_stops_at_failure [nsDefault] [podApp] unknownSet
           "default/allow-app" SelectorType (NewDataPlane "testnode")
           (createAndReference [nsDefault] "default/allow-app" SelectorType
              (ipsetMgr (NewDataPlane "testnode"))).2);
    vm_compute; reflexivity.
Defined.

End strict_witnesses.

End dataplane_spec.

(** ** The Windows platform of the DataPlane *)

Module dataplane_windows_spec.

Import dataplane_windows.

Lemma append_slash_inj (ns1 ns2 rest1 rest2 : string) :
  hasSlash ns1 = false -> hasSlash ns2 = false ->
  ns1 +:+ String "/"%char rest1 = ns2 +:+ String "/"%char rest2 ->
  ns1 = ns2 ∧ rest1 = rest2.
Proof.
  revert ns2. induction ns1 as [|c1 ns1 IH]; intros [|c2 ns2]; simpl.
  - intros _ _ [= ->]. split; reflexivity.
  - intros _ Hno [= <- _]. simpl in Hno. discriminate.
  - intros Hno _ [= -> _]. simpl in Hno. discriminate.
  - intros [_ Hno1]%orb_false_elim [_ Hno2]%orb_false_elim [= -> Hrest].
    destruct (IH ns2 Hno1 Hno2 Hrest) as [-> ->]. split; reflexivity.
Qed.

(** X18: the pod key tells pods apart: for namespaces without a slash, two
    pods with the same key have the same namespace and the same name. *)
Theorem X18_getNPMPodKey_injective (ns1 name1 ns2 name2 : string) :
  hasSlash ns1 = false -> hasSlash ns2 = false ->
  getNPMPodKey ns1 name1 = getNPMPodKey ns2 name2 ->
  ns1 = ns2 ∧ name1 = name2.
Proof. unfold getNPMPodKey. apply append_slash_inj. Qed.

Section properties.
Context `{Hcn}.

Lemma hasIP_spec (podIP : string) (endpoint : HostComputeEndpoint) :
  hasIP podIP endpoint = true <->
  ∃ ipConfig, ipConfig ∈ IpConfigurations endpoint ∧ IpAddress ipConfig = podIP.
Proof.
  unfold hasIP. rewrite existsb_exists. split.
  - intros (c & Hin%list_elem_of_In & Heq%bool_decide_eq_true_1). eauto.
  - intros (c & Hin%list_elem_of_In & Heq). exists c. split; [exact Hin|].
    apply bool_decide_eq_true_2. exact Heq.
Qed.

Lemma findEndpointByIP_spec (podIP : string) (endpoints : list HostComputeEndpoint) :
  match findEndpointByIP podIP endpoints with
  | None => ∀ endpoint, endpoint ∈ endpoints -> hasIP podIP endpoint = false
  | Some ep =>
      ∃ (before : list HostComputeEndpoint) endpoint after,
        endpoints = (before ++ endpoint :: after)%list ∧
        (∀ earlier, earlier ∈ before -> hasIP podIP earlier = false) ∧
        hasIP podIP endpoint = true ∧
        Name ep = EndpointName endpoint ∧ ID ep = EndpointId endpoint ∧
        Some (IP ep) = IpAddress <$> head (IpConfigurations endpoint) ∧
        NetPolReference ep = ∅
  end.
Proof.
  induction endpoints as [|endpoint rest IH]; simpl.
  - intros endpoint Hin. inversion Hin.
  - destruct (hasIP podIP endpoint) eqn:Hhas.
    + exists [], endpoint, rest. repeat split; try assumption.
      * intros earlier Hin. inversion Hin.
      * unfold hasIP in Hhas. destruct (IpConfigurations endpoint); [discriminate|].
        reflexivity.
    + destruct (findEndpointByIP podIP rest) as [ep|].
      * destruct IH as (before & e & after & -> & Hbefore & He & Hrest).
        exists (endpoint :: before), e, after. repeat split; try assumption; try apply Hrest.
        intros earlier [->|Hin]%elem_of_cons; auto.
      * intros e [->|Hin]%elem_of_cons; auto.
Qed.

(** X19: getEndpointByIP passes an error of the endpoint listing on;
    otherwise it returns the first listed endpoint one of whose IP
    configurations has the address, under that endpoint's name and id, with
    no policy reference and with the address of the endpoint's first
    configuration as its IP; it returns nil exactly when no listed endpoint
    has the address. *)
Theorem X19_getEndpointByIP (podIP : string) (dp : DataPlane) :
  match ListEndpointsOfNetwork (networkID dp) with
  | inl err => getEndpointByIP podIP dp = inl err
  | inr endpoints =>
      ∃ found, getEndpointByIP podIP dp = inr found ∧
        match found with
        | None =>
            ∀ endpoint ipConfig, endpoint ∈ endpoints ->
              ipConfig ∈ IpConfigurations endpoint -> IpAddress ipConfig ≠ podIP
        | Some ep =>
            ∃ (before : list HostComputeEndpoint) endpoint after,
              endpoints = (before ++ endpoint :: after)%list ∧
              (∀ earlier ipConfig, earlier ∈ before ->
                 ipConfig ∈ IpConfigurations earlier -> IpAddress ipConfig ≠ podIP) ∧
              (∃ ipConfig, ipConfig ∈ IpConfigurations endpoint ∧ IpAddress ipConfig = podIP) ∧
              Name ep = EndpointName endpoint ∧ ID ep = EndpointId endpoint ∧
              Some (IP ep) = IpAddress <$> head (IpConfigurations endpoint) ∧
              NetPolReference ep = ∅
        end
  end.
Proof.
  unfold getEndpointByIP, getAllPodEndpoints.
  destruct (ListEndpointsOfNetwork (networkID dp)) as [err|endpoints]; [reflexivity|].
  eexists. split; [reflexivity|].
  assert (Hnot : ∀ e, hasIP podIP e = false ->
            ∀ c, c ∈ IpConfigurations e -> IpAddress c ≠ podIP).
  { intros e Hno c Hin Heq.
    assert (hasIP podIP e = true) by (apply hasIP_spec; eauto). congruence. }
  pose proof (findEndpointByIP_spec podIP endpoints) as Hspec.
  destruct (findEndpointByIP podIP endpoints) as [ep|].
  - destruct Hspec as (before & e & after & Heq & Hbefore & He & Hrest).
    exists before, e, after. split; [exact Heq|]. split.
    { intros earlier c Hin. apply Hnot, Hbefore, Hin. }
    split; [apply hasIP_spec, He | exact Hrest].
  - intros e c Hin. apply Hnot, Hspec, Hin.
Qed.

(** X20: what updatePod leaves alone.  Whenever it returns, the network id,
    the node name and every cache entry but the pod's own are as before; it
    changes nothing at all when it returns an error, when the pod is on
    another node, and when the pod is cached with the address it has (the
    host is then not consulted). *)
Theorem X20_updatePod_frame (pod : UpdateNPMPod) (dp : DataPlane) :
  (∀ r dp', updatePod pod dp = Done (r, dp') ->
     networkID dp' = networkID dp ∧ nodeName dp' = nodeName dp ∧
     (∀ key, key ≠ getNPMPodKey (Namespace pod) (PodName pod) ->
             endpointCache dp' !! key = endpointCache dp !! key) ∧
     (r ≠ None -> dp' = dp)) ∧
  (NodeName pod ≠ nodeName dp -> updatePod pod dp = Done (None, dp)) ∧
  (∀ ep, endpointCache dp !! getNPMPodKey (Namespace pod) (PodName pod) = Some (Some ep) ->
         IP ep = PodIP pod -> updatePod pod dp = Done (None, dp)).
Proof.
  assert (Hfetch : ∀ key r dp', fetchEndpoint key pod dp = Done (r, dp') ->
            networkID dp' = networkID dp ∧ nodeName dp' = nodeName dp ∧
            (∀ k, k ≠ key -> endpointCache dp' !! k = endpointCache dp !! k) ∧
            (r ≠ None -> dp' = dp)).
  { intros key r dp'. unfold fetchEndpoint.
    destruct (getEndpointByIP (PodIP pod) dp) as [err|found]; intros ?; simplify_eq.
    - repeat split; auto.
    - repeat split; [|congruence].
      intros k Hk. simpl. apply lookup_insert_ne. congruence. }
  split; [|split].
  - intros r dp'. unfold updatePod.
    destruct (bool_decide (NodeName pod ≠ nodeName dp)).
    { intros ?; simplify_eq. repeat split; auto. }
    destruct (endpointCache dp !! _) as [[ep|]|]; [|discriminate|apply Hfetch].
    destruct (bool_decide (IP ep ≠ PodIP pod)); [apply Hfetch|].
    intros ?; simplify_eq. repeat split; auto.
  - intros Hnode. unfold updatePod. rewrite bool_decide_eq_true_2 by exact Hnode. reflexivity.
  - intros ep Hcached Hip. unfold updatePod.
    destruct (bool_decide (NodeName pod ≠ nodeName dp)); [reflexivity|].
    rewrite Hcached. rewrite bool_decide_eq_false_2; [reflexivity|].
    intros Hne. apply Hne. exact Hip.
Qed.

(** X21: a pod of this node that is not cached and whose address no listed
    endpoint has: updatePod returns no error and caches the nil pointer
    under the pod key; the next updatePod for the pod reads the address of
    that nil endpoint and panics. *)
Theorem X21_updatePod_caches_nil_then_panics (pod : UpdateNPMPod) (dp : DataPlane)
    (endpoints : list HostComputeEndpoint) :
  NodeName pod = nodeName dp ->
  endpointCache dp !! getNPMPodKey (Namespace pod) (PodName pod) = None ->
  ListEndpointsOfNetwork (networkID dp) = inr endpoints ->
  (∀ endpoint ipConfig, endpoint ∈ endpoints ->
     ipConfig ∈ IpConfigurations endpoint -> IpAddress ipConfig ≠ PodIP pod) ->
  ∃ dp', updatePod pod dp = Done (None, dp') ∧
         endpointCache dp' !! getNPMPodKey (Namespace pod) (PodName pod) = Some None ∧
         updatePod pod dp' = Panic.
Proof.
  intros Hnode Hcached Hlist Hnone.
  assert (Hfind : findEndpointByIP (PodIP pod) endpoints = None).
  { pose proof (findEndpointByIP_spec (PodIP pod) endpoints) as Hspec.
    destruct (findEndpointByIP (PodIP pod) endpoints) as [ep|]; [|reflexivity].
    destruct Hspec as (before & e & after & -> & _ & (c & Hc & Heq)%hasIP_spec & _).
    exfalso. apply (Hnone e c); [|exact Hc|exact Heq].
    apply elem_of_app. right. left. }
  assert (Hown : bool_decide (NodeName pod ≠ nodeName dp) = false).
  { apply bool_decide_eq_false_2. intros Hne. apply Hne. exact Hnode. }
  unfold updatePod. rewrite Hown, Hcached.
  unfold fetchEndpoint, getEndpointByIP, getAllPodEndpoints. rewrite Hlist, Hfind.
  eexists. split; [reflexivity|]. simpl. rewrite Hown, lookup_insert_eq.
  split; reflexivity.
Qed.

Lemma refreshAllPodEndpoints_networkID (dp : DataPlane) :
  networkID (refreshAllPodEndpoints dp).2 = networkID dp.
Proof.
  unfold refreshAllPodEndpoints, getAllPodEndpoints.
  destruct (ListEndpointsOfNetwork (networkID dp)) as [err|endpoints]; [reflexivity|].
  simpl. generalize dp. clear dp.
  induction endpoints as [|e rest IH]; intros dp; [reflexivity|].
  simpl. rewrite IH. reflexivity.
Qed.

(** X22: refreshAllPodEndpoints.  When the listing fails nothing changes.
    When it succeeds the network id and the node name stay, every listed
    endpoint is cached under its own name (not under a pod key) with no IP
    and no policy reference and with the id of a listed endpoint of that
    name, and the keys that name no listed endpoint keep their entries. *)
Theorem X22_refreshAllPodEndpoints (dp : DataPlane) :
  match ListEndpointsOfNetwork (networkID dp) with
  | inl err => refreshAllPodEndpoints dp = (Some err, dp)
  | inr endpoints =>
      ∃ dp', refreshAllPodEndpoints dp = (None, dp') ∧
        networkID dp' = networkID dp ∧ nodeName dp' = nodeName dp ∧
        (∀ endpoint, endpoint ∈ endpoints ->
           ∃ listed, listed ∈ endpoints ∧ EndpointName listed = EndpointName endpoint ∧
             endpointCache dp' !! EndpointName endpoint
               = Some (Some {| Name := EndpointName endpoint; ID := EndpointId listed;
                               IP := ""; NetPolReference := ∅ |})) ∧
        (∀ key, (∀ endpoint, endpoint ∈ endpoints -> EndpointName endpoint ≠ key) ->
                endpointCache dp' !! key = endpointCache dp !! key)
  end.
Proof.
  unfold refreshAllPodEndpoints, getAllPodEndpoints.
  destruct (ListEndpointsOfNetwork (networkID dp)) as [err|endpoints]; [reflexivity|].
  eexists. split; [reflexivity|].
  generalize dp. clear dp.
  induction endpoints as [|e rest IH] using rev_ind; intros dp.
  - simpl. repeat split; auto. intros endpoint Hin. inversion Hin.
  - rewrite foldl_app. simpl.
    destruct (IH dp) as (Hnet & Hnode & Hlisted & Hother).
    split; [exact Hnet|]. split; [exact Hnode|]. split.
    + intros endpoint Hin.
      destruct (decide (EndpointName e = EndpointName endpoint)) as [Hsame|Hdiff].
      * exists e. split; [apply elem_of_app; right; left|]. split; [exact Hsame|].
        rewrite <- Hsame. apply lookup_insert_eq.
      * apply elem_of_app in Hin as [Hin|Hin].
        -- destruct (Hlisted endpoint Hin) as (listed & Hl & Hname & Hcache).
           exists listed. split; [apply elem_of_app; left; exact Hl|].
           split; [exact Hname|]. rewrite lookup_insert_ne by exact Hdiff. exact Hcache.
        -- apply list_elem_of_singleton in Hin. congruence.
    + intros key Hkey. rewrite lookup_insert_ne.
      * apply Hother. intros endpoint Hin. apply Hkey. apply elem_of_app. left. exact Hin.
      * apply Hkey. apply elem_of_app. right. left.
Qed.

(** X23: initializeDataPlane.  When the network "azure" is not found
    nothing changes.  When it is found but its endpoints cannot be listed,
    the error is returned with the network id already set and the cache
    untouched.  When both succeed, the network id is the one found and the
    state is the one refreshAllPodEndpoints leaves for it. *)
Theorem X23_initializeDataPlane (dp : DataPlane) :
  match GetNetworkByName "azure" with
  | inl err => initializeDataPlane dp = (Some err, dp)
  | inr network =>
      let dp1 := {| networkID := NetworkId network; nodeName := nodeName dp;
                    endpointCache := endpointCache dp |} in
      match ListEndpointsOfNetwork (NetworkId network) with
      | inl err => initializeDataPlane dp = (Some err, dp1)
      | inr endpoints =>
          initializeDataPlane dp = refreshAllPodEndpoints dp1 ∧
          (initializeDataPlane dp).1 = None ∧
          networkID (initializeDataPlane dp).2 = NetworkId network
      end
  end.
Proof.
  unfold initializeDataPlane, setNetworkIDByName, AzureNetworkName.
  destruct (GetNetworkByName "azure") as [err|network]; [reflexivity|].
  pose proof (refreshAllPodEndpoints_networkID
                {| networkID := NetworkId network; nodeName := nodeName dp;
                   endpointCache := endpointCache dp |}) as Hnet.
  unfold refreshAllPodEndpoints, getAllPodEndpoints in *. simpl in *.
  destruct (ListEndpointsOfNetwork (NetworkId network)) as [err|endpoints].
  - reflexivity.
  - repeat split. exact Hnet.
Qed.

End properties.

Section witnesses.
#[local] Existing Instance testHcn.

Lemma X18_witness :
  getNPMPodKey "default" "web" = "default/web" ∧ "default" = "default" ∧ "web" = "web".
Proof.
  split; [reflexivity|].
  apply (X18_getNPMPodKey_injective "default" "web" "default" "web"); reflexivity.
Defined.

Lemma X20_witness : updatePod dbPod dbCached = Done (None, dbCached).
Proof.
  apply (proj2 (proj2 (X20_updatePod_frame dbPod dbCached))
           {| Name := "db-eth0"; ID := "ep-2"; IP := "10.240.0.9"; NetPolReference := ∅ |});
    vm_compute; reflexivity.
Defined.

Lemma X21_witness :
  ∃ dp', updatePod lostPod testNode = Done (None, dp') ∧
         endpointCache dp' !! getNPMPodKey "default" "lost" = Some None ∧
         updatePod lostPod dp' = Panic.
Proof.
  apply (X21_updatePod_caches_nil_then_panics lostPod testNode [webEndpoint; dbEndpoint]);
    [reflexivity | vm_compute; reflexivity | reflexivity |].
  intros endpoint ipConfig Hendpoint HipConfig.
  repeat (apply elem_of_cons in Hendpoint as [->|Hendpoint]);
    [| |inversion Hendpoint]; simpl in HipConfig;
    repeat (apply elem_of_cons in HipConfig as [->|HipConfig]);
    first [discriminate | inversion HipConfig].
Defined.

End witnesses.

End dataplane_windows_spec.
